(** * power_wifi: packet dispatcher and stepper motion controller

    Shallow embedding of [L5_Application/source/power_wifi.cpp].

    Conventions.
    - C integers are modelled in [Z] with the wrap-around of every typed
      store written out ([u8], [u16], [u32], [s8], [s16]).  [char] is the
      unsigned 8-bit [char] of the ARM EABI the firmware is built for.
    - [energyArray] is declared [double], but the only store into it is the
      quotient of two [unsigned int]s, which a double holds exactly, so its
      entries are modelled in [Z].
    - [adc0_get_reading], [mesh_get_node_address] and [wireless_send] belong
      to the board support package: they are the variables of the section
      below (the result of ADC conversion number k, the address of the node,
      the outcome of the k-th transmission).  The motion queue holds at most
      ten words; the hand-off of received packets to the decoding task is
      not modelled, the decoding is run on each packet.
    - GPIO port 2 is its output latch [fio2]: a write to FIOSET sets bits, a
      write to FIOCLR clears bits, FIOPIN and FIOSET read the latch back.
    - [printf] output and [vTaskDelay] carry no state and are left out. *)

From Stdlib Require Import ZArith List Bool Lia.
From stdpp Require Import base list.
Import ListNotations.
Local Open Scope Z_scope.

(** ** Machine integers *)

Definition wrap (bits x : Z) : Z := x mod 2 ^ bits.
Definition swrap (bits x : Z) : Z :=
  (x + 2 ^ (bits - 1)) mod 2 ^ bits - 2 ^ (bits - 1).

Definition u8 : Z -> Z := wrap 8.
Definition u16 : Z -> Z := wrap 16.
Definition u32 : Z -> Z := wrap 32.
Definition s8 : Z -> Z := swrap 8.
Definition s16 : Z -> Z := swrap 16.

(** ** Protocol constants *)

Definition WIFI_CMD_REQPWR : Z := 0.
Definition WIFI_CMD_GET_STATUS : Z := 1.
Definition WIFI_CMD_GIVE_STATUS : Z := 2.
Definition WIFI_CMD_CTL_DIR : Z := 3.
Definition WIFI_CMD_TERMINATE : Z := 4.
Definition WIFI_CMD_SCAN : Z := 5.
Definition WIFI_CMD_MOVE : Z := 6.

Definition WIFI_MASTER_ADDR : Z := 100.

Definition WIFI_STATUS_IDX_ERR : nat := 1.
Definition WIFI_STATUS_IDX_ADCU : nat := 2.
Definition WIFI_STATUS_IDX_ADCL : nat := 3.
Definition WIFI_STATUS_IDX_MPOS : nat := 4.
Definition ADC_AVERAGE_DEPTH : Z := 2000.

Definition WIFI_MOVE_IDX_CMD : nat := 0.
Definition WIFI_MOVE_IDX_PARAM1 : nat := 1.
Definition WIFI_MOVE_IDX_PARAM2 : nat := 2.
Definition WIFI_MOVE_IDX_PARAM3 : nat := 3.

Definition CMD_UNPACK (p : Z) : Z := Z.land (Z.shiftr p 24) 255.
Definition PARAM1_UNPACK (p : Z) : Z := Z.land (Z.shiftr p 16) 255.
Definition PARAM2_UNPACK (p : Z) : Z := Z.land (Z.shiftr p 8) 255.
Definition PARAM3_UNPACK (p : Z) : Z := Z.land (Z.shiftr p 0) 255.

(** ** Motion constants *)

Definition DIRECTION_PIN : Z := Z.shiftl 1 1.
Definition ENABLE_PIN : Z := Z.shiftl 1 0.
Definition STEP_PIN : Z := Z.shiftl 1 3.

Definition SPEED_MS : Z := 10.
Definition STEPS_FULL_REV : Z := 400.
Definition ENERGY_SAMPLES : Z := 10.
Definition ADC_SAMPLE_PERIOD : Z := STEPS_FULL_REV / ENERGY_SAMPLES.

Definition STEPS_PER_REV : Z := 200.
Definition DRIVE_ON : bool := false.
Definition DRIVE_OFF : bool := true.
Definition CW : bool := true.
Definition CCW : bool := false.

Inductive commandType : Set :=
  | scan | set_speed | move | test_rotate_pos | test_rotate_neg | none.

(** ** Data *)

(** A received mesh packet, as far as the dispatcher reads it: [nwk.src],
    [info.data_len] and the [uint8_t data[]] buffer.  A byte of the buffer
    is loaded with [pkt_byte]. *)
Record mesh_packet_t : Type := {
  nwk_src : Z;
  info_data_len : Z;
  data : list Z
}.

Definition pkt_byte (pkt : mesh_packet_t) (i : nat) : Z :=
  u8 (nth i (data pkt) 0).

(** The file-scope variables of the protocol half, the count of
    [wireless_send] calls made so far and the packets that went out. *)
Record Comm : Type := {
  position : Z;
  busy : Z;
  error : Z;
  slave_boot_up : bool;
  tx_n : nat;
  outbox : list (Z * list Z)
}.

(** The file-scope variables of the motion half and the port-2 latch.
    [command] is [None] once [commandSequence] has been read past its ten
    entries, where C leaves the value read undetermined. *)
Record Motor : Type := {
  current_pos : Z;
  steps_todo : Z;
  steps_todo2 : Z;
  current_speed : Z;
  energyArray : list Z;
  commandSequence : list commandType;
  energyArray_idx : Z;
  busy_bit : Z;
  command : option commandType;
  command_idx : Z;
  fio2 : Z
}.

Definition set_current_pos (v : Z) (m : Motor) : Motor :=
  {| current_pos := v; steps_todo := steps_todo m;
     steps_todo2 := steps_todo2 m; current_speed := current_speed m;
     energyArray := energyArray m; commandSequence := commandSequence m;
     energyArray_idx := energyArray_idx m; busy_bit := busy_bit m;
     command := command m; command_idx := command_idx m; fio2 := fio2 m |}.

Definition set_steps_todo (v : Z) (m : Motor) : Motor :=
  {| current_pos := current_pos m; steps_todo := v;
     steps_todo2 := steps_todo2 m; current_speed := current_speed m;
     energyArray := energyArray m; commandSequence := commandSequence m;
     energyArray_idx := energyArray_idx m; busy_bit := busy_bit m;
     command := command m; command_idx := command_idx m; fio2 := fio2 m |}.

Definition set_steps_todo2 (v : Z) (m : Motor) : Motor :=
  {| current_pos := current_pos m; steps_todo := steps_todo m;
     steps_todo2 := v; current_speed := current_speed m;
     energyArray := energyArray m; commandSequence := commandSequence m;
     energyArray_idx := energyArray_idx m; busy_bit := busy_bit m;
     command := command m; command_idx := command_idx m; fio2 := fio2 m |}.

Definition set_energy (a : list Z) (i : Z) (m : Motor) : Motor :=
  {| current_pos := current_pos m; steps_todo := steps_todo m;
     steps_todo2 := steps_todo2 m; current_speed := current_speed m;
     energyArray := a; commandSequence := commandSequence m;
     energyArray_idx := i; busy_bit := busy_bit m;
     command := command m; command_idx := command_idx m; fio2 := fio2 m |}.

Definition set_busy_bit (v : Z) (m : Motor) : Motor :=
  {| current_pos := current_pos m; steps_todo := steps_todo m;
     steps_todo2 := steps_todo2 m; current_speed := current_speed m;
     energyArray := energyArray m; commandSequence := commandSequence m;
     energyArray_idx := energyArray_idx m; busy_bit := v;
     command := command m; command_idx := command_idx m; fio2 := fio2 m |}.

Definition set_command (c : option commandType) (i : Z) (m : Motor) : Motor :=
  {| current_pos := current_pos m; steps_todo := steps_todo m;
     steps_todo2 := steps_todo2 m; current_speed := current_speed m;
     energyArray := energyArray m; commandSequence := commandSequence m;
     energyArray_idx := energyArray_idx m; busy_bit := busy_bit m;
     command := c; command_idx := i; fio2 := fio2 m |}.

Definition set_fio2 (v : Z) (m : Motor) : Motor :=
  {| current_pos := current_pos m; steps_todo := steps_todo m;
     steps_todo2 := steps_todo2 m; current_speed := current_speed m;
     energyArray := energyArray m; commandSequence := commandSequence m;
     energyArray_idx := energyArray_idx m; busy_bit := busy_bit m;
     command := command m; command_idx := command_idx m; fio2 := v |}.

(** ** GPIO port 2 *)

Definition FIOSET (mask : Z) (m : Motor) : Motor :=
  set_fio2 (Z.lor (fio2 m) mask) m.
Definition FIOCLR (mask : Z) (m : Motor) : Motor :=
  set_fio2 (Z.ldiff (fio2 m) mask) m.
Definition pin_high (mask : Z) (m : Motor) : bool :=
  negb (Z.land (fio2 m) mask =? 0).

Definition enableDrive (state : bool) (m : Motor) : Motor :=
  if state then FIOSET ENABLE_PIN m else FIOCLR ENABLE_PIN m.

Definition setDirection (direction : bool) (m : Motor) : Motor :=
  if direction then FIOSET DIRECTION_PIN m else FIOCLR DIRECTION_PIN m.

Definition toggleStep (m : Motor) : Motor :=
  if pin_high STEP_PIN m then FIOCLR STEP_PIN m
  else
    let m1 := FIOSET STEP_PIN m in
    if pin_high DIRECTION_PIN m1
    then set_current_pos (u16 ((current_pos m1 + 1) mod STEPS_PER_REV)) m1
    else if current_pos m1 >? 0
         then set_current_pos (u16 (current_pos m1 - 1)) m1
         else set_current_pos (u16 (STEPS_PER_REV - 1)) m1.

(** [get_max_energy_pos]: the loop runs while [cur_sample_idx] is below
    [ENERGY_SAMPLES]; [fuel] bounds the iterations of the model. *)
Fixpoint max_energy_loop (fuel : nat) (a : list Z) (cur_sample_idx max_sample_idx : Z) : Z :=
  match fuel with
  | O => max_sample_idx
  | S fuel' =>
      if cur_sample_idx <? ENERGY_SAMPLES then
        let max' :=
          if nth (Z.to_nat cur_sample_idx) a 0 >? nth (Z.to_nat max_sample_idx) a 0
          then cur_sample_idx else max_sample_idx in
        max_energy_loop fuel' a (u8 (cur_sample_idx + 1)) max'
      else max_sample_idx
  end.

Definition max_sample_index (a : list Z) : Z :=
  max_energy_loop (Z.to_nat ENERGY_SAMPLES) a 0 0.

Definition get_max_energy_pos (m : Motor) : Z :=
  u8 (max_sample_index (energyArray m) * (ADC_SAMPLE_PERIOD / 2)).

(** ** The motion task

    One pass of the body of [motion_task] is run on a [Run]: the motor
    variables, the number of ADC conversions made so far, and the motor
    states the pass has gone through (latest first).  Every statement that
    writes a motor variable or a pin is one [tick]. *)

Record Run : Type := { cur : Motor; adc_k : Z; past : list Motor }.

Definition start (m : Motor) (k : Z) : Run :=
  {| cur := m; adc_k := k; past := [] |}.

Definition tick (f : Motor -> Motor) (r : Run) : Run :=
  {| cur := f (cur r); adc_k := adc_k r; past := cur r :: past r |}.

(** The states of a run in the order they occurred, the first being the
    state the run started from. *)
Definition trace (r : Run) : list Motor := rev (cur r :: past r).

(** [while (cond) body], unrolled at most [fuel] times. *)
Fixpoint while_loop {St : Type} (fuel : nat) (cond : St -> bool)
    (body : St -> St) (s : St) : St :=
  match fuel with
  | O => s
  | S fuel' => if cond s then while_loop fuel' cond body (body s) else s
  end.

Definition next_command (m : Motor) : Motor :=
  set_command (commandSequence m !! Z.to_nat (command_idx m))
              (u8 (command_idx m + 1)) m.

Definition store_sample (v : Z) (m : Motor) : Motor :=
  set_energy (<[Z.to_nat (energyArray_idx m) := v]> (energyArray m))
             (u8 (energyArray_idx m + 1)) m.

Section Firmware.
(** The result of the k-th call of [adc0_get_reading(ADC_PORT)]. *)
Variable adc0_get_reading : Z -> Z.

(** [for (i = 0; i < n; i++) adc += adc0_get_reading(ADC_PORT);] on an
    accumulator of the integer type whose conversion is [cast]. *)
Fixpoint adc_accumulate (cast : Z -> Z) (n : nat) (k adc : Z) : Z :=
  match n with
  | O => adc
  | S n' => adc_accumulate cast n' (k + 1) (cast (adc + adc0_get_reading k))
  end.

Definition scan_reading (k : Z) : Z :=
  adc_accumulate u32 (Z.to_nat ADC_AVERAGE_DEPTH) k 0 / ADC_AVERAGE_DEPTH.

Definition take_sample (r : Run) : Run :=
  {| cur := store_sample (scan_reading (adc_k r)) (cur r);
     adc_k := adc_k r + ADC_AVERAGE_DEPTH;
     past := cur r :: past r |}.

(** The sweep loop carries the local [adc_sample_flag] next to the run. *)
Definition sweep_cond (s : Z * Run) : bool := steps_todo (cur (snd s)) >? 0.

Definition sweep_body (s : Z * Run) : Z * Run :=
  let adc_sample_flag := fst s in
  let r1 := if adc_sample_flag mod ADC_SAMPLE_PERIOD =? 0
            then take_sample (snd s) else snd s in
  let r2 := tick toggleStep r1 in
  let r3 := tick (fun m => set_steps_todo (s16 (steps_todo m - 1)) m) r2 in
  (adc_sample_flag + 1, r3).

Definition seek_cond (r : Run) : bool := steps_todo (cur r) >? 0.

Definition seek_body (r : Run) : Run :=
  tick (fun m => set_steps_todo (s16 (steps_todo m - 1)) m)
       (tick toggleStep r).

Definition move_cond (r : Run) : bool := steps_todo2 (cur r) >? 0.

Definition move_body (r : Run) : Run :=
  tick (fun m => set_steps_todo2 (s8 (steps_todo2 m - 1)) m)
       (tick toggleStep r).

(** [case WIFI_CMD_SCAN], between the two writes of [busy_bit]. *)
Definition scan_sweep (r : Run) : Run :=
  let r := tick (set_steps_todo (s16 STEPS_FULL_REV)) r in
  let r := tick (fun m => set_energy (energyArray m) 0 m) r in
  let r := tick (enableDrive DRIVE_ON) r in
  let r := tick (setDirection CW) r in
  snd (while_loop (Z.to_nat (steps_todo (cur r))) sweep_cond sweep_body (0, r)).

Definition scan_seek (r : Run) : Run :=
  let r := tick (fun m =>
                   set_steps_todo (s16 (get_max_energy_pos m - current_pos m)) m) r in
  let r := tick (fun m =>
                   setDirection (if steps_todo m >? 0 then CW else CCW) m) r in
  while_loop (Z.to_nat (steps_todo (cur r))) seek_cond seek_body r.

Definition scan_case (r : Run) : Run :=
  tick (set_busy_bit 0) (scan_seek (scan_sweep (tick (set_busy_bit 1) r))).

(** The value that [steps_todo2 = PARAM1_UNPACK(rx)] stores in the [int8_t]. *)
Definition move_param (rx : Z) : Z := s8 (PARAM1_UNPACK rx).

(** [case WIFI_CMD_MOVE], between the two writes of [busy_bit]. *)
Definition move_steps (rx : Z) (r : Run) : Run :=
  let r := tick (set_steps_todo2 (move_param rx)) r in
  let r := tick (fun m =>
                   if steps_todo2 m >? 0 then setDirection CW m
                   else setDirection CCW m) r in
  let r := tick (fun m => set_steps_todo2 (s8 (Z.abs (steps_todo2 m))) m) r in
  while_loop (Z.to_nat (steps_todo2 (cur r))) move_cond move_body r.

Definition move_case (rx : Z) (r : Run) : Run :=
  tick (set_busy_bit 0) (move_steps rx (tick (set_busy_bit 1) r)).

(** The body of the [while (1)] of [motion_task] once a word [rx] has
    been received. *)
Definition motion_handle (rx : Z) (r : Run) : Run :=
  let r :=
    if CMD_UNPACK rx =? WIFI_CMD_SCAN then scan_case r
    else if CMD_UNPACK rx =? WIFI_CMD_MOVE then move_case rx r
    else r in
  if busy_bit (cur r) =? 0 then tick next_command r else r.

(** ** The node: both halves, the motion queue between them, the ADC *)

Record World : Type := {
  comm : Comm;
  motor : Motor;
  motion_queue : list Z;
  adc_n : Z
}.

Definition set_comm (c : Comm) (w : World) : World :=
  {| comm := c; motor := motor w; motion_queue := motion_queue w;
     adc_n := adc_n w |}.

(** [xQueueCreate(10, sizeof(int32_t))] *)
Definition MOTION_QUEUE_LENGTH : nat := 10.

(** The address of this node. *)
Variable mesh_get_node_address : Z.
(** What the k-th call of [wireless_send] returns. *)
Variable wireless_link : nat -> bool.

Definition wireless_send (dst : Z) (pkg : list Z) (w : World) : bool * World :=
  let c := comm w in
  let sent := wireless_link (tx_n c) in
  (sent,
   set_comm {| position := position c; busy := busy c; error := error c;
               slave_boot_up := slave_boot_up c; tx_n := S (tx_n c);
               outbox := if sent then outbox c ++ [(dst, pkg)]
                         else outbox c |} w).

(** [xQueueSend(motion_queue, &motion, 1000)]: the word is queued when
    there is room, and dropped when the queue is still full. *)
Definition xQueueSend (item : Z) (w : World) : bool * World :=
  if (length (motion_queue w) <? MOTION_QUEUE_LENGTH)%nat
  then (true, {| comm := comm w; motor := motor w;
                 motion_queue := motion_queue w ++ [item];
                 adc_n := adc_n w |})
  else (false, w).

Definition wifi_slave_request (w : World) : World :=
  if negb (slave_boot_up (comm w))
     && negb (mesh_get_node_address =? WIFI_MASTER_ADDR)
  then snd (wireless_send WIFI_MASTER_ADDR [u8 WIFI_CMD_REQPWR] w)
  else w.

Definition heartbeat_reading (k : Z) : Z :=
  u16 (adc_accumulate u16 (Z.to_nat ADC_AVERAGE_DEPTH) k 0 / ADC_AVERAGE_DEPTH).

Definition wifi_slave_heartbeat (w : World) : World :=
  let c := comm w in
  let c := {| position := position c; busy := busy c; error := u8 (busy c);
              slave_boot_up := slave_boot_up c; tx_n := tx_n c;
              outbox := outbox c |} in
  let adc := heartbeat_reading (adc_n w) in
  let w := {| comm := c; motor := motor w; motion_queue := motion_queue w;
              adc_n := adc_n w + ADC_AVERAGE_DEPTH |} in
  let pkg := [ u8 WIFI_CMD_GIVE_STATUS;
               u8 (error c);
               u8 (Z.land (Z.shiftr adc 8) 15);
               u8 (Z.land adc 255);
               u8 (position c) ] in
  snd (wireless_send WIFI_MASTER_ADDR pkg w).

Definition set_slave_boot_up (b : bool) (w : World) : World :=
  let c := comm w in
  set_comm {| position := position c; busy := busy c; error := error c;
              slave_boot_up := b; tx_n := tx_n c; outbox := outbox c |} w.

Definition move_word (pkt : mesh_packet_t) (cmd : Z) : Z :=
  u32 (Z.lor (Z.lor (Z.shiftl cmd 24)
                    (Z.shiftl (pkt_byte pkt WIFI_MOVE_IDX_PARAM1) 16))
             (Z.shiftl (pkt_byte pkt WIFI_MOVE_IDX_PARAM2) 8)).

Definition wifi_pkt_decoding (pkt : mesh_packet_t) (w : World) : Z * World :=
  let len := u8 (info_data_len pkt) in
  let cmd := pkt_byte pkt 0 in
  if cmd =? WIFI_CMD_REQPWR then
    if negb (mesh_get_node_address =? WIFI_MASTER_ADDR) then (0, w)
    else (0, snd (wireless_send (nwk_src pkt) [u8 WIFI_CMD_GET_STATUS] w))
  else if cmd =? WIFI_CMD_GET_STATUS then
    let w := set_slave_boot_up true w in
    if mesh_get_node_address =? WIFI_MASTER_ADDR then (0, w)
    else (0, wifi_slave_heartbeat w)
  else if cmd =? WIFI_CMD_GIVE_STATUS then
    if negb (mesh_get_node_address =? WIFI_MASTER_ADDR) then (0, w)
    else if len =? 0 then (cmd, w)
    else (0, snd (wireless_send (nwk_src pkt) [u8 WIFI_CMD_SCAN] w))
  else if cmd =? WIFI_CMD_CTL_DIR then (0, w)
  else if cmd =? WIFI_CMD_TERMINATE then (0, w)
  else if cmd =? WIFI_CMD_MOVE then
    (0, snd (xQueueSend (move_word pkt cmd) w))
  else if cmd =? WIFI_CMD_SCAN then
    (0, snd (xQueueSend (u32 (Z.shiftl cmd 24)) w))
  else (0, w).

(** Whether a call of [wireless_send] made between [w] and [w'] failed. *)
Definition send_failed (w w' : World) : bool :=
  existsb (fun k => negb (wireless_link k))
          (seq (tx_n (comm w)) (tx_n (comm w') - tx_n (comm w))).

(** One turn of the [while (1)] of [motion_task]: nothing happens when
    [xQueueReceive] finds the queue empty. *)
Definition motion_task (w : World) : World :=
  match motion_queue w with
  | [] => w
  | rx :: q =>
      let r := motion_handle rx (start (motor w) (adc_n w)) in
      {| comm := comm w; motor := cur r; motion_queue := q;
         adc_n := adc_k r |}
  end.

(** The state after [power_wifi_init]: zeroed statics, the initialisers of
    the file and an all-low port latch. *)
Definition motor_init : Motor :=
  {| current_pos := 0; steps_todo := 0; steps_todo2 := 0;
     current_speed := SPEED_MS; energyArray := repeat 0 20;
     commandSequence := repeat scan 10; energyArray_idx := 0;
     busy_bit := 0; command := Some none; command_idx := 0; fio2 := 0 |}.

Definition comm_init : Comm :=
  {| position := 0; busy := 0; error := 0; slave_boot_up := false;
     tx_n := O; outbox := [] |}.

Definition world_init : World :=
  {| comm := comm_init; motor := motor_init; motion_queue := [];
     adc_n := 0 |}.

(** The states the node can be in between two task activations. *)
Inductive reachable : World -> Prop :=
  | reach_init : reachable world_init
  | reach_request w : reachable w -> reachable (wifi_slave_request w)
  | reach_decode pkt w :
      reachable w -> reachable (snd (wifi_pkt_decoding pkt w))
  | reach_motion w : reachable w -> reachable (motion_task w).

(** ** Predicates of the properties *)

(** [run_since P base r]: the run [r] has passed [base] and every state it
    went through afterwards, the current one included, satisfies [P]. *)
Definition run_since (P : Motor -> Prop) (base : list Motor) (r : Run) : Prop :=
  P (cur r) /\ exists new, past r = new ++ base /\ Forall P new.

Definition in_range (m : Motor) : Prop := 0 <= current_pos m < STEPS_PER_REV.

Definition is_busy (m : Motor) : Prop := busy_bit m = 1.
Definition is_idle (m : Motor) : Prop := busy_bit m = 0.

(** The sum of the [n] conversions from number [k] on, without wrap-around. *)
Fixpoint adc_sum (n : nat) (k : Z) : Z :=
  match n with
  | O => 0
  | S n' => adc0_get_reading k + adc_sum n' (k + 1)
  end.

(** The first [n] samples of a scan that starts at ADC conversion [k0]. *)
Definition samples_from (k0 : Z) (n : nat) : list Z :=
  map (fun i => scan_reading (k0 + ADC_AVERAGE_DEPTH * Z.of_nat i)) (seq 0 n).

(** What holds of the sweep loop before iteration [adc_sample_flag]. *)
Definition sweep_inv (A0 : list Z) (k0 : Z) (s : Z * Run) : Prop :=
  0 <= fst s <= STEPS_FULL_REV
  /\ steps_todo (cur (snd s)) = STEPS_FULL_REV - fst s
  /\ exists n : nat,
       Z.of_nat n = (fst s + 39) / 40
       /\ energyArray_idx (cur (snd s)) = Z.of_nat n
       /\ adc_k (snd s) = k0 + ADC_AVERAGE_DEPTH * Z.of_nat n
       /\ energyArray (cur (snd s)) = samples_from k0 n ++ drop n A0.

(** From the specification: [i] is the first index of [samples] that holds
    the greatest value. *)
Definition first_argmax (samples : list Z) (i : nat) : Prop :=
  (i < length samples)%nat
  /\ (forall j, (j < length samples)%nat -> nth j samples 0 <= nth i samples 0)
  /\ (forall j, (j < i)%nat -> nth j samples 0 < nth i samples 0).

(** ** Concrete inputs *)

Definition adc_constant (v : Z) : Z -> Z := fun _ => v.
Definition link_up : nat -> bool := fun _ => true.
Definition link_down : nat -> bool := fun _ => false.
Definition slave_addr : Z := 7.

Definition pkt_reqpwr : mesh_packet_t :=
  {| nwk_src := slave_addr; info_data_len := 1; data := [WIFI_CMD_REQPWR] |}.
Definition pkt_get_status : mesh_packet_t :=
  {| nwk_src := WIFI_MASTER_ADDR; info_data_len := 1;
     data := [WIFI_CMD_GET_STATUS] |}.
Definition pkt_give_status_empty : mesh_packet_t :=
  {| nwk_src := slave_addr; info_data_len := 0;
     data := [WIFI_CMD_GIVE_STATUS; 0; 3; 232; 0] |}.
Definition pkt_scan : mesh_packet_t :=
  {| nwk_src := WIFI_MASTER_ADDR; info_data_len := 1;
     data := [WIFI_CMD_SCAN] |}.
Definition pkt_move (param1 : Z) : mesh_packet_t :=
  {| nwk_src := WIFI_MASTER_ADDR; info_data_len := 4;
     data := [WIFI_CMD_MOVE; param1; 0; 0] |}.
(** A MOVE packet that declares the command byte only, in a buffer that
    still holds the bytes of an earlier packet. *)
Definition pkt_move_short : mesh_packet_t :=
  {| nwk_src := WIFI_MASTER_ADDR; info_data_len := 1;
     data := [WIFI_CMD_MOVE; 251; 9; 0] |}.

Definition motor_with_samples (a : list Z) : Motor :=
  set_energy a ENERGY_SAMPLES motor_init.

(** An ADC input that is brightest while the third sample of a scan begun
    at conversion 0 is taken. *)
Definition adc_peak (k : Z) : Z :=
  if (4000 <=? k) && (k <? 6000) then 3000 else 1000.

(** The motor at the last position of the revolution, turning clockwise. *)
Definition motor_at_end : Motor :=
  set_current_pos (STEPS_PER_REV - 1) (setDirection CW motor_init).

(** ** Further definitions *)

(** [n] successive calls of [toggleStep]. *)
Fixpoint toggles (n : nat) (m : Motor) : Motor :=
  match n with
  | O => m
  | S n' => toggles n' (toggleStep m)
  end.

(** Two motor states with the same position and the same port latch. *)
Definition same_motion (m1 m2 : Motor) : Prop :=
  current_pos m1 = current_pos m2 /\ fio2 m1 = fio2 m2.

(** The number of position changes that [n] toggles make: a toggle moves the
    motor when it raises the STEP pin. *)
Definition rising_edges (step_high : bool) (n : Z) : Z :=
  (n + (if step_high then 0 else 1)) / 2.

(** The hand-off of received packets: [xQueueCreate(10, sizeof(mesh_packet_t))]
    between [wifi_receive_task] and [mid_comm_task]. *)
Record Node : Type := { world : World; comm_queue : list mesh_packet_t }.

Definition COMM_QUEUE_LENGTH : nat := 10.

(** One turn of [wifi_receive_task]; [rx] is what [wireless_get_rx_pkt]
    delivered within its timeout, if anything. *)
Definition wifi_receive_task (rx : option mesh_packet_t) (n : Node) : Node :=
  match rx with
  | None => n
  | Some pkt =>
      if (length (comm_queue n) <? COMM_QUEUE_LENGTH)%nat
      then {| world := world n; comm_queue := comm_queue n ++ [pkt] |}
      else n
  end.

(** One turn of [mid_comm_task]: the result code of the decoding is only
    logged. *)
Definition mid_comm_task (n : Node) : Node :=
  match comm_queue n with
  | [] => n
  | pkt :: q =>
      {| world := snd (wifi_pkt_decoding pkt (world n)); comm_queue := q |}
  end.

(** What [get_max_energy_pos] returns after the sweep of a scan that began
    at ADC conversion [k] on the buffer [a]. *)
Definition scan_target (k : Z) (a : list Z) : Z :=
  u8 (max_sample_index (samples_from k 10 ++ drop 10 a)
      * (ADC_SAMPLE_PERIOD / 2)).

(** [n] successive turns of a task. *)
Fixpoint turns {A : Type} (n : nat) (task : A -> A) (a : A) : A :=
  match n with
  | O => a
  | S n' => turns n' task (task a)
  end.

(** The packet a node receives when a peer at address [src] has passed
    [pkg] and its length to [wireless_send] and the mesh has delivered it. *)
Definition delivered (src : Z) (pkg : list Z) : mesh_packet_t :=
  {| nwk_src := src; info_data_len := Z.of_nat (length pkg); data := pkg |}.

(** The pin registers that [power_wifi_init] writes, each 32 bits wide. *)
Record PinRegs : Type := {
  PINSEL1 : Z;
  PINSEL4 : Z;
  FIODIR2 : Z;
  PINMODE4 : Z;
  PINMODE_OD2 : Z
}.

(** The register writes of [power_wifi_init], in the order of the source. *)
Definition power_wifi_init_pins (c : PinRegs) : PinRegs :=
  let pinsel1 := u32 (Z.land (PINSEL1 c) (Z.lnot (Z.shiftl 3 20))) in
  let pinsel1 := u32 (Z.lor pinsel1 (Z.shiftl 1 20)) in
  {| PINSEL1 := pinsel1;
     PINSEL4 := u32 (Z.land (PINSEL4 c) (Z.lnot 255));
     FIODIR2 := u32 (Z.lor (FIODIR2 c)
                           (DIRECTION_PIN + ENABLE_PIN + STEP_PIN));
     PINMODE4 := u32 (Z.lor (PINMODE4 c) (3 + Z.shiftl 3 2 + Z.shiftl 3 4));
     PINMODE_OD2 := u32 (DIRECTION_PIN + ENABLE_PIN + STEP_PIN) |}.

(** ** Further concrete inputs *)

(** The MOVE word whose first parameter is the byte [b], and the SCAN word. *)
Definition word_move (b : Z) : Z := WIFI_CMD_MOVE * 16777216 + b * 65536.
Definition word_scan : Z := WIFI_CMD_SCAN * 16777216.

(** A node whose motion queue is full. *)
Definition world_full : World :=
  {| comm := comm_init; motor := motor_init;
     motion_queue := repeat word_scan 10; adc_n := 0 |}.

Definition pkt_terminate : mesh_packet_t :=
  {| nwk_src := WIFI_MASTER_ADDR; info_data_len := 1;
     data := [WIFI_CMD_TERMINATE] |}.

Definition pkt_give_status : mesh_packet_t :=
  {| nwk_src := slave_addr; info_data_len := 5;
     data := [WIFI_CMD_GIVE_STATUS; 0; 0; 16; 0] |}.

Definition pins_reset : PinRegs :=
  {| PINSEL1 := 0; PINSEL4 := 255; FIODIR2 := 0; PINMODE4 := 0;
     PINMODE_OD2 := 0 |}.

(** * Properties *)

(** ** Integer conversions and the packing of the command word *)

Lemma u8_small x : 0 <= x < 256 -> u8 x = x.
Proof. intros H. unfold u8, wrap. apply Z.mod_small. lia. Qed.

Lemma u16_small x : 0 <= x < 65536 -> u16 x = x.
Proof. intros H. unfold u16, wrap. apply Z.mod_small. lia. Qed.

Lemma u32_small x : 0 <= x < 4294967296 -> u32 x = x.
Proof. intros H. unfold u32, wrap. apply Z.mod_small. lia. Qed.

Lemma u8_range x : 0 <= u8 x < 256.
Proof. unfold u8, wrap. apply Z.mod_pos_bound. lia. Qed.

Lemma s16_small x : -32768 <= x < 32768 -> s16 x = x.
Proof.
  intros H. unfold s16, swrap. change (2 ^ (16 - 1)) with 32768.
  change (2 ^ 16) with 65536. rewrite Z.mod_small; lia.
Qed.

Lemma s8_small x : -128 <= x < 128 -> s8 x = x.
Proof.
  intros H. unfold s8, swrap. change (2 ^ (8 - 1)) with 128.
  change (2 ^ 8) with 256. rewrite Z.mod_small; lia.
Qed.

Lemma s8_high x : 128 <= x < 256 -> s8 x = x - 256.
Proof.
  intros H. unfold s8, swrap. change (2 ^ (8 - 1)) with 128.
  change (2 ^ 8) with 256.
  replace (x + 128) with ((x - 128) + 1 * 256) by lia.
  rewrite Z.mod_add by lia. rewrite Z.mod_small; lia.
Qed.

Lemma pkt_byte_range pkt i : 0 <= pkt_byte pkt i < 256.
Proof. apply u8_range. Qed.

Lemma land_shiftl_low hi lo n :
  0 <= n -> 0 <= lo < 2 ^ n -> Z.land (Z.shiftl hi n) lo = 0.
Proof.
  intros Hn Hlo. apply Z.bits_inj'. intros i Hi.
  rewrite Z.land_spec, Z.bits_0.
  destruct (Z.lt_ge_cases i n) as [Hlt | Hge].
  - rewrite Z.shiftl_spec_low by lia. reflexivity.
  - rewrite <- (Z.mod_small lo (2 ^ n)) by lia.
    rewrite Z.mod_pow2_bits_high by lia. apply andb_false_r.
Qed.

Lemma lor_shiftl_low hi lo n :
  0 <= n -> 0 <= lo < 2 ^ n -> Z.lor (Z.shiftl hi n) lo = hi * 2 ^ n + lo.
Proof.
  intros Hn Hlo.
  rewrite <- Z.lxor_lor by (apply land_shiftl_low; assumption).
  rewrite <- Z.add_nocarry_lxor by (apply land_shiftl_low; assumption).
  rewrite Z.shiftl_mul_pow2 by lia. reflexivity.
Qed.

Lemma land_255 x : Z.land x 255 = x mod 256.
Proof. change 255 with (Z.ones 8). rewrite Z.land_ones by lia. reflexivity. Qed.

(** The word built for MOVE is the sum of its three byte fields. *)
Lemma move_word_sum pkt cmd :
  0 <= cmd < 256 ->
  move_word pkt cmd =
    cmd * 16777216 + pkt_byte pkt WIFI_MOVE_IDX_PARAM1 * 65536
    + pkt_byte pkt WIFI_MOVE_IDX_PARAM2 * 256.
Proof.
  intros Hc. unfold move_word.
  pose proof (pkt_byte_range pkt WIFI_MOVE_IDX_PARAM1) as H1.
  pose proof (pkt_byte_range pkt WIFI_MOVE_IDX_PARAM2) as H2.
  set (a := pkt_byte pkt WIFI_MOVE_IDX_PARAM1) in *.
  set (b := pkt_byte pkt WIFI_MOVE_IDX_PARAM2) in *.
  rewrite (Z.shiftl_mul_pow2 a 16) by lia.
  rewrite (lor_shiftl_low cmd (a * 2 ^ 16) 24) by lia.
  replace (cmd * 2 ^ 24 + a * 2 ^ 16) with (Z.shiftl (cmd * 256 + a) 16)
    by (rewrite Z.shiftl_mul_pow2 by lia; lia).
  rewrite (Z.shiftl_mul_pow2 b 8) by lia.
  rewrite (lor_shiftl_low (cmd * 256 + a) (b * 2 ^ 8) 16) by lia.
  rewrite u32_small by lia. lia.
Qed.

Lemma CMD_UNPACK_sum c a b :
  0 <= c < 256 -> 0 <= a < 256 -> 0 <= b < 256 ->
  CMD_UNPACK (c * 16777216 + a * 65536 + b * 256) = c.
Proof.
  intros Hc Ha Hb. unfold CMD_UNPACK.
  rewrite land_255, Z.shiftr_div_pow2 by lia.
  change (2 ^ 24) with 16777216.
  replace ((c * 16777216 + a * 65536 + b * 256) / 16777216) with c
    by (apply Z.div_unique with (r := a * 65536 + b * 256); lia).
  apply Z.mod_small. lia.
Qed.

Lemma PARAM1_UNPACK_sum c a b :
  0 <= c < 256 -> 0 <= a < 256 -> 0 <= b < 256 ->
  PARAM1_UNPACK (c * 16777216 + a * 65536 + b * 256) = a.
Proof.
  intros Hc Ha Hb. unfold PARAM1_UNPACK.
  rewrite land_255, Z.shiftr_div_pow2 by lia.
  change (2 ^ 16) with 65536.
  replace ((c * 16777216 + a * 65536 + b * 256) / 65536) with (c * 256 + a)
    by (apply Z.div_unique with (r := b * 256); lia).
  rewrite Z.add_comm, Z.mod_add by lia. apply Z.mod_small. lia.
Qed.

(** ** The dispatcher *)

Lemma xQueueSend_room item w :
  (length (motion_queue w) < MOTION_QUEUE_LENGTH)%nat ->
  motion_queue (snd (xQueueSend item w)) = motion_queue w ++ [item].
Proof.
  intros H. unfold xQueueSend.
  destruct (Nat.ltb_spec (length (motion_queue w)) MOTION_QUEUE_LENGTH);
    [reflexivity | lia].
Qed.

Lemma decoding_MOVE pkt w :
  pkt_byte pkt 0 = WIFI_CMD_MOVE ->
  wifi_pkt_decoding pkt w =
    (0, snd (xQueueSend (move_word pkt WIFI_CMD_MOVE) w)).
Proof. intros H. unfold wifi_pkt_decoding. rewrite H. reflexivity. Qed.

Lemma move_param_round_trip pkt p :
  -128 <= p < 128 ->
  pkt_byte pkt WIFI_MOVE_IDX_PARAM1 = u8 p ->
  CMD_UNPACK (move_word pkt WIFI_CMD_MOVE) = WIFI_CMD_MOVE
  /\ move_param (move_word pkt WIFI_CMD_MOVE) = p.
Proof.
  intros Hp Hb.
  pose proof (pkt_byte_range pkt WIFI_MOVE_IDX_PARAM1) as H1.
  pose proof (pkt_byte_range pkt WIFI_MOVE_IDX_PARAM2) as H2.
  rewrite move_word_sum by (unfold WIFI_CMD_MOVE; lia). split.
  - apply CMD_UNPACK_sum; (unfold WIFI_CMD_MOVE; lia) || assumption.
  - unfold move_param.
    rewrite PARAM1_UNPACK_sum by ((unfold WIFI_CMD_MOVE; lia) || assumption).
    rewrite Hb. unfold u8, wrap. change (2 ^ 8) with 256.
    destruct (Z.lt_ge_cases p 0) as [Hneg | Hpos].
    + replace (p mod 256) with (p + 256)
        by (apply Z.mod_unique with (q := -1); lia).
      rewrite s8_high; lia.
    + rewrite Z.mod_small by lia. apply s8_small. lia.
Qed.

(** C2. Decoding a MOVE packet whose first parameter byte holds +5 (or the
    byte that encodes -5) queues a Motion Command Word that unpacks to the
    command MOVE and whose parameter, read the way [motion_task] reads it
    into [steps_todo2], is +5 (respectively -5). *)
Theorem move_packet_round_trip pkt w p :
  p = 5 \/ p = -5 ->
  pkt_byte pkt 0 = WIFI_CMD_MOVE ->
  pkt_byte pkt WIFI_MOVE_IDX_PARAM1 = u8 p ->
  (length (motion_queue w) < MOTION_QUEUE_LENGTH)%nat ->
  exists rx,
    motion_queue (snd (wifi_pkt_decoding pkt w)) = motion_queue w ++ [rx]
    /\ CMD_UNPACK rx = WIFI_CMD_MOVE
    /\ move_param rx = p.
Proof.
  intros Hp Hcmd Hb Hroom. exists (move_word pkt WIFI_CMD_MOVE).
  rewrite decoding_MOVE by assumption. cbn [snd].
  split; [apply xQueueSend_room; assumption |].
  apply move_param_round_trip; [lia | assumption].
Qed.

(** C10. For every MOVE packet, whatever its [data_len] (no hypothesis
    bounds it) and whatever the role of the node, the dispatcher returns 0
    and queues the word made of the command and of the buffer bytes at
    indices 1 and 2. *)
Theorem move_ignores_data_len pkt w :
  pkt_byte pkt 0 = WIFI_CMD_MOVE ->
  (length (motion_queue w) < MOTION_QUEUE_LENGTH)%nat ->
  fst (wifi_pkt_decoding pkt w) = 0
  /\ comm (snd (wifi_pkt_decoding pkt w)) = comm w
  /\ motion_queue (snd (wifi_pkt_decoding pkt w)) =
       motion_queue w
       ++ [WIFI_CMD_MOVE * 16777216
           + pkt_byte pkt WIFI_MOVE_IDX_PARAM1 * 65536
           + pkt_byte pkt WIFI_MOVE_IDX_PARAM2 * 256].
Proof.
  intros Hcmd Hroom. rewrite decoding_MOVE by assumption. cbn [fst snd].
  split; [reflexivity |]. split.
  - unfold xQueueSend.
    destruct (length (motion_queue w) <? MOTION_QUEUE_LENGTH)%nat; reflexivity.
  - rewrite xQueueSend_room by assumption.
    rewrite move_word_sum by (unfold WIFI_CMD_MOVE; lia). reflexivity.
Qed.

(** C7. On the master, a GIVE_STATUS packet whose data length is zero makes
    the decoding return a non-zero code and leaves the whole node state as
    it was: no transmission is attempted and nothing is queued. *)
Theorem give_status_empty_is_error pkt w :
  mesh_get_node_address = WIFI_MASTER_ADDR ->
  pkt_byte pkt 0 = WIFI_CMD_GIVE_STATUS ->
  info_data_len pkt = 0 ->
  fst (wifi_pkt_decoding pkt w) <> 0
  /\ snd (wifi_pkt_decoding pkt w) = w.
Proof.
  intros Haddr Hcmd Hlen. unfold wifi_pkt_decoding.
  rewrite Hcmd, Haddr, Hlen. cbn. split; [discriminate | reflexivity].
Qed.

(** With a data length of one (the command byte alone) the master does not
    report an error: it answers with SCAN. *)
Lemma give_status_command_only pkt w :
  mesh_get_node_address = WIFI_MASTER_ADDR ->
  pkt_byte pkt 0 = WIFI_CMD_GIVE_STATUS ->
  info_data_len pkt = 1 ->
  wifi_pkt_decoding pkt w =
    (0, snd (wireless_send (nwk_src pkt) [u8 WIFI_CMD_SCAN] w)).
Proof.
  intros Haddr Hcmd Hlen. unfold wifi_pkt_decoding.
  rewrite Hcmd, Haddr, Hlen. reflexivity.
Qed.

(** C3 (amended). The decoding returns a non-zero code exactly when the
    node is the master, the command is GIVE_STATUS and the data length is
    zero; the code is then the command byte.  In every other case, a failed
    transmission included, it returns zero. *)
Theorem decoding_result_code pkt w :
  (fst (wifi_pkt_decoding pkt w) <> 0 <->
     mesh_get_node_address = WIFI_MASTER_ADDR
     /\ pkt_byte pkt 0 = WIFI_CMD_GIVE_STATUS
     /\ u8 (info_data_len pkt) = 0)
  /\ (fst (wifi_pkt_decoding pkt w) = 0
      \/ fst (wifi_pkt_decoding pkt w) = WIFI_CMD_GIVE_STATUS).
Proof.
  unfold wifi_pkt_decoding.
  repeat match goal with
         | |- context [?a =? ?b] =>
             destruct (Z.eqb_spec a b); cbn [negb fst snd]
         end;
    (split; [split; [intros H; try (exfalso; apply H; reflexivity)
                    | intros (H1 & H2 & H3); try congruence]
            | auto]).
  all: try (repeat split; assumption).
  all: try (rewrite e; discriminate).
  all: unfold WIFI_CMD_GIVE_STATUS, WIFI_CMD_REQPWR, WIFI_CMD_GET_STATUS in *;
    try lia.
Qed.

(** ** Loops and runs *)

Lemma while_loop_inv {St : Type} (I : St -> Prop) cond body :
  (forall s, I s -> cond s = true -> I (body s)) ->
  forall fuel s, I s -> I (while_loop fuel cond body s).
Proof.
  intros Hbody fuel. induction fuel as [| fuel IH]; intros s Hs; cbn.
  - assumption.
  - destruct (cond s) eqn:Hc; [apply IH, Hbody; assumption | assumption].
Qed.

(** A loop whose body lowers a non-negative measure leaves by its test,
    not by the end of the fuel, when the fuel covers the measure. *)
Lemma while_loop_exit {St : Type} (I : St -> Prop) (mu : St -> Z) cond body :
  (forall s, I s -> cond s = true -> I (body s) /\ 0 <= mu (body s) < mu s) ->
  forall fuel s, I s -> mu s <= Z.of_nat fuel ->
    I (while_loop fuel cond body s)
    /\ cond (while_loop fuel cond body s) = false.
Proof.
  intros Hbody fuel. induction fuel as [| fuel IH]; intros s Hs Hmu; cbn.
  - split; [assumption |]. destruct (cond s) eqn:Hc; [| reflexivity].
    destruct (Hbody s Hs Hc) as [_ Hlt]. lia.
  - destruct (cond s) eqn:Hc; [| split; assumption].
    destruct (Hbody s Hs Hc) as [HI Hlt]. apply IH; [assumption | lia].
Qed.

Lemma tick_since P base f r :
  (forall m, P m -> P (f m)) ->
  run_since P base r -> run_since P base (tick f r).
Proof.
  intros Hf [Hc (new & Hp & Hn)]. split; [apply Hf, Hc |].
  exists (cur r :: new). cbn. rewrite Hp.
  split; [reflexivity | constructor; assumption].
Qed.

Section RunInvariant.
Variable P : Motor -> Prop.
Variable base : list Motor.
Hypothesis P_toggle : forall m, P m -> P (toggleStep m).
Hypothesis P_todo : forall v m, P m -> P (set_steps_todo v m).
Hypothesis P_todo2 : forall v m, P m -> P (set_steps_todo2 v m).
Hypothesis P_fio2 : forall v m, P m -> P (set_fio2 v m).
Hypothesis P_energy : forall a i m, P m -> P (set_energy a i m).

Lemma P_setDirection d m : P m -> P (setDirection d m).
Proof. intros H. destruct d; apply P_fio2, H. Qed.

Lemma P_enableDrive d m : P m -> P (enableDrive d m).
Proof. intros H. destruct d; apply P_fio2, H. Qed.

Lemma take_sample_since r :
  run_since P base r -> run_since P base (take_sample r).
Proof.
  intros [Hc (new & Hp & Hn)]. split; [apply P_energy, Hc |].
  exists (cur r :: new). cbn. rewrite Hp.
  split; [reflexivity | constructor; assumption].
Qed.

Lemma seek_body_since r :
  run_since P base r -> run_since P base (seek_body r).
Proof.
  intros H. unfold seek_body.
  apply tick_since; [intros m; apply P_todo |].
  apply tick_since; [apply P_toggle | exact H].
Qed.

Lemma move_body_since r :
  run_since P base r -> run_since P base (move_body r).
Proof.
  intros H. unfold move_body.
  apply tick_since; [intros m; apply P_todo2 |].
  apply tick_since; [apply P_toggle | exact H].
Qed.

Lemma sweep_body_since s :
  run_since P base (snd s) -> run_since P base (snd (sweep_body s)).
Proof.
  intros H. unfold sweep_body. cbn [snd].
  apply tick_since; [intros m; apply P_todo |].
  apply tick_since; [apply P_toggle |].
  destruct (_ =? _); [apply take_sample_since |]; exact H.
Qed.

Lemma scan_sweep_since r :
  run_since P base r -> run_since P base (scan_sweep r).
Proof.
  intros H. unfold scan_sweep.
  apply (while_loop_inv (fun s => run_since P base (snd s))).
  - intros s Hs _. apply sweep_body_since, Hs.
  - cbn [snd].
    apply tick_since; [apply P_setDirection |].
    apply tick_since; [apply P_enableDrive |].
    apply tick_since; [intros m; apply P_energy |].
    apply tick_since; [apply P_todo | exact H].
Qed.

Lemma scan_seek_since r :
  run_since P base r -> run_since P base (scan_seek r).
Proof.
  intros H. unfold scan_seek. apply while_loop_inv.
  - intros s Hs _. apply seek_body_since, Hs.
  - apply tick_since; [intros m; apply P_setDirection |].
    apply tick_since; [intros m; apply P_todo | exact H].
Qed.

Lemma move_steps_since rx r :
  run_since P base r -> run_since P base (move_steps rx r).
Proof.
  intros H. unfold move_steps. apply while_loop_inv.
  - intros s Hs _. apply move_body_since, Hs.
  - apply tick_since; [intros m; apply P_todo2 |].
    apply tick_since;
      [intros m Hm; destruct (_ >? _); apply P_setDirection, Hm |].
    apply tick_since; [apply P_todo2 | exact H].
Qed.

Hypothesis P_busy : forall v m, P m -> P (set_busy_bit v m).
Hypothesis P_command : forall c i m, P m -> P (set_command c i m).

Lemma motion_handle_since rx r :
  run_since P base r -> run_since P base (motion_handle rx r).
Proof.
  intros H. unfold motion_handle.
  assert (Hsw : run_since P base
            (if CMD_UNPACK rx =? WIFI_CMD_SCAN then scan_case r
             else if CMD_UNPACK rx =? WIFI_CMD_MOVE then move_case rx r
             else r)).
  { destruct (_ =? _); [| destruct (_ =? _)]; [| | exact H].
    - unfold scan_case. apply tick_since; [apply P_busy |].
      apply scan_seek_since, scan_sweep_since.
      apply tick_since; [apply P_busy | exact H].
    - unfold move_case. apply tick_since; [apply P_busy |].
      apply move_steps_since.
      apply tick_since; [apply P_busy | exact H]. }
  destruct (_ =? 0); [| exact Hsw].
  apply tick_since; [intros m; apply P_command | exact Hsw].
Qed.
End RunInvariant.

Lemma start_since P m k : P m -> run_since P [] (start m k).
Proof. intros H. split; [exact H |]. exists []. split; [reflexivity | constructor]. Qed.

Lemma run_since_trace P r : run_since P [] r -> Forall P (trace r).
Proof.
  intros [Hc (new & Hp & Hn)]. unfold trace.
  apply Forall_rev. constructor; [exact Hc |].
  rewrite Hp, app_nil_r. exact Hn.
Qed.

(** ** Position bookkeeping *)

Lemma direction_after_step_set m :
  pin_high DIRECTION_PIN (FIOSET STEP_PIN m) = pin_high DIRECTION_PIN m.
Proof.
  unfold pin_high, FIOSET. cbn [fio2 set_fio2].
  rewrite Z.land_lor_distr_l.
  change (Z.land STEP_PIN DIRECTION_PIN) with 0. rewrite Z.lor_0_r.
  reflexivity.
Qed.

Lemma toggleStep_forward m :
  pin_high STEP_PIN m = false -> pin_high DIRECTION_PIN m = true ->
  in_range m ->
  current_pos (toggleStep m) = (current_pos m + 1) mod STEPS_PER_REV.
Proof.
  intros Hs Hd Hr. unfold toggleStep. rewrite Hs, direction_after_step_set, Hd.
  cbn. apply u16_small.
  pose proof (Z.mod_pos_bound (current_pos m + 1) STEPS_PER_REV) as Hb.
  unfold STEPS_PER_REV in *. lia.
Qed.

Lemma toggleStep_backward m :
  pin_high STEP_PIN m = false -> pin_high DIRECTION_PIN m = false ->
  in_range m ->
  current_pos (toggleStep m) =
    if current_pos m >? 0 then current_pos m - 1 else STEPS_PER_REV - 1.
Proof.
  intros Hs Hd Hr. unfold toggleStep. rewrite Hs, direction_after_step_set, Hd.
  cbn. unfold in_range, STEPS_PER_REV in *.
  destruct (Z.gtb_spec (current_pos m) 0); cbn; apply u16_small; lia.
Qed.

Lemma toggleStep_falling m :
  pin_high STEP_PIN m = true -> current_pos (toggleStep m) = current_pos m.
Proof. intros Hs. unfold toggleStep. rewrite Hs. reflexivity. Qed.

Lemma toggleStep_in_range m : in_range m -> in_range (toggleStep m).
Proof.
  intros Hr. unfold in_range.
  destruct (pin_high STEP_PIN m) eqn:Hs.
  - rewrite toggleStep_falling by assumption. exact Hr.
  - destruct (pin_high DIRECTION_PIN m) eqn:Hd.
    + rewrite toggleStep_forward by assumption.
      apply Z.mod_pos_bound. reflexivity.
    + rewrite toggleStep_backward by assumption.
      unfold in_range, STEPS_PER_REV in *.
      destruct (Z.gtb_spec (current_pos m) 0); lia.
Qed.

Lemma toggleStep_busy m : busy_bit (toggleStep m) = busy_bit m.
Proof.
  unfold toggleStep.
  repeat match goal with |- context [if ?c then _ else _] => destruct c end;
    reflexivity.
Qed.

Lemma motion_handle_in_range rx m k :
  in_range m -> run_since in_range [] (motion_handle rx (start m k)).
Proof.
  intros H. apply motion_handle_since; try (intros; assumption).
  - apply toggleStep_in_range.
  - apply start_since, H.
Qed.

Lemma decoding_motor pkt w : motor (snd (wifi_pkt_decoding pkt w)) = motor w.
Proof.
  unfold wifi_pkt_decoding, wifi_slave_heartbeat, xQueueSend.
  repeat match goal with
         | |- context [if ?c then _ else _] => destruct c
         end; reflexivity.
Qed.

Lemma request_motor w : motor (wifi_slave_request w) = motor w.
Proof. unfold wifi_slave_request. destruct (_ && _); reflexivity. Qed.

Lemma reachable_in_range w : reachable w -> in_range (motor w).
Proof.
  induction 1 as [| w _ IH | pkt w _ IH | w _ IH].
  - cbn. unfold in_range, STEPS_PER_REV. cbn. lia.
  - rewrite request_motor. exact IH.
  - rewrite decoding_motor. exact IH.
  - unfold motion_task. destruct (motion_queue w) as [| rx q]; [exact IH |].
    cbn [motor]. apply (motion_handle_in_range rx _ (adc_n w) IH).
Qed.

(** C6. A forward step from [STEPS_PER_REV - 1] wraps to 0, a backward step
    from 0 wraps to [STEPS_PER_REV - 1], [toggleStep] keeps the position in
    [0, STEPS_PER_REV), and so the position is in that range in every state
    the node can reach and in every state the motion task goes through
    while it executes a command word. *)
Theorem position_always_in_range :
  (forall m, pin_high STEP_PIN m = false -> pin_high DIRECTION_PIN m = true ->
             current_pos m = STEPS_PER_REV - 1 ->
             current_pos (toggleStep m) = 0)
  /\ (forall m, pin_high STEP_PIN m = false ->
                pin_high DIRECTION_PIN m = false ->
                current_pos m = 0 ->
                current_pos (toggleStep m) = STEPS_PER_REV - 1)
  /\ (forall m, in_range m -> in_range (toggleStep m))
  /\ (forall w, reachable w ->
        in_range (motor w)
        /\ forall rx,
             Forall in_range
                    (trace (motion_handle rx (start (motor w) (adc_n w))))).
Proof.
  split; [| split; [| split]].
  - intros m Hs Hd Hp. rewrite toggleStep_forward; try assumption.
    + rewrite Hp. reflexivity.
    + unfold in_range. rewrite Hp. unfold STEPS_PER_REV. lia.
  - intros m Hs Hd Hp. rewrite toggleStep_backward; try assumption.
    + rewrite Hp. reflexivity.
    + unfold in_range. rewrite Hp. unfold STEPS_PER_REV. lia.
  - apply toggleStep_in_range.
  - intros w Hw. pose proof (reachable_in_range w Hw) as Hr.
    split; [exact Hr |]. intros rx.
    apply run_since_trace, motion_handle_in_range, Hr.
Qed.

(** ** The busy flag *)

(** A command body that leaves [busy_bit] alone, run between the two writes
    of the flag and followed by the pick of the next command: the states of
    the body are the busy ones, and the two states that follow its last
    state are the idle ones. *)
Lemma busy_window (body : Run -> Run) m0 k :
  (forall r, run_since is_busy [m0] r -> run_since is_busy [m0] (body r)) ->
  exists during after,
    trace (tick next_command
             (tick (set_busy_bit 0)
                (body (tick (set_busy_bit 1) (start m0 k)))))
      = m0 :: during ++ after
    /\ m0 :: during = trace (body (tick (set_busy_bit 1) (start m0 k)))
    /\ (exists done,
          last during = Some done
          /\ after = [set_busy_bit 0 done; next_command (set_busy_bit 0 done)]
          /\ cur (tick next_command
                    (tick (set_busy_bit 0)
                       (body (tick (set_busy_bit 1) (start m0 k)))))
             = next_command (set_busy_bit 0 done))
    /\ during <> [] /\ after <> []
    /\ Forall is_busy during /\ Forall is_idle after.
Proof.
  intros Hbody.
  destruct (Hbody (tick (set_busy_bit 1) (start m0 k)))
    as [Hc (new & Hp & Hn)].
  { split; [reflexivity |]. exists []. split; [reflexivity | constructor]. }
  revert Hc Hp.
  generalize (body (tick (set_busy_bit 1) (start m0 k))).
  intros r2 Hc Hp.
  exists (rev new ++ [cur r2]),
         [set_busy_bit 0 (cur r2); next_command (set_busy_bit 0 (cur r2))].
  split; [| split; [| split; [| split; [| split; [| split]]]]].
  - unfold trace. cbn [tick cur past rev]. rewrite Hp.
    rewrite rev_app_distr. cbn [rev app].
    rewrite <- !app_assoc. reflexivity.
  - unfold trace. cbn [rev]. rewrite Hp, rev_app_distr. reflexivity.
  - exists (cur r2). split; [apply last_snoc |]. split; reflexivity.
  - intros H. apply app_eq_nil in H. destruct H as [_ H]. discriminate.
  - discriminate.
  - apply Forall_app. split; [apply Forall_rev, Hn |].
    constructor; [exact Hc | constructor].
  - repeat constructor.
Qed.

Lemma motion_handle_idle rx m k :
  is_idle m -> is_idle (cur (motion_handle rx (start m k))).
Proof.
  intros H. unfold motion_handle, scan_case, move_case.
  destruct (_ =? WIFI_CMD_SCAN); [| destruct (_ =? WIFI_CMD_MOVE)]; cbn.
  - reflexivity.
  - reflexivity.
  - rewrite H. cbn. exact H.
Qed.

Lemma reachable_idle w : reachable w -> is_idle (motor w).
Proof.
  induction 1 as [| w _ IH | pkt w _ IH | w _ IH].
  - reflexivity.
  - rewrite request_motor. exact IH.
  - rewrite decoding_motor. exact IH.
  - unfold motion_task. destruct (motion_queue w) as [| rx q]; [exact IH |].
    cbn [motor]. apply motion_handle_idle, IH.
Qed.

(** C8. When the motion task takes a SCAN or MOVE word from the queue,
    [busy_bit] is 0 in the state it starts from.  The states it then goes
    through are, in this order: the states [during] of the command's case,
    which are exactly the states of the run from the write [busy_bit = 1]
    to the end of the SCAN sweep and seek, or of the MOVE steps, and in
    every one of which [busy_bit] is 1; then the two states [after], which
    are the write [busy_bit = 0] on the last state [done] of the case and
    the pick of the next command, and in which [busy_bit] is 0.  The last
    of them is the state the task is left in. *)
Theorem busy_during_command w rx q :
  reachable w ->
  motion_queue w = rx :: q ->
  CMD_UNPACK rx = WIFI_CMD_SCAN \/ CMD_UNPACK rx = WIFI_CMD_MOVE ->
  is_idle (motor w)
  /\ (exists during after,
        trace (motion_handle rx (start (motor w) (adc_n w)))
          = motor w :: during ++ after
        /\ motor w :: during
           = trace (if CMD_UNPACK rx =? WIFI_CMD_SCAN
                    then scan_seek (scan_sweep
                           (tick (set_busy_bit 1)
                                 (start (motor w) (adc_n w))))
                    else move_steps rx
                           (tick (set_busy_bit 1)
                                 (start (motor w) (adc_n w))))
        /\ (exists done,
              last during = Some done
              /\ after = [set_busy_bit 0 done;
                          next_command (set_busy_bit 0 done)]
              /\ motor (motion_task w) = next_command (set_busy_bit 0 done))
        /\ during <> [] /\ after <> []
        /\ Forall is_busy during /\ Forall is_idle after)
  /\ is_idle (motor (motion_task w)).
Proof.
  intros Hw Hq Hcmd. pose proof (reachable_idle w Hw) as Hidle.
  split; [exact Hidle |]. split.
  - assert (Hmt : motor (motion_task w)
                  = cur (motion_handle rx (start (motor w) (adc_n w)))).
    { unfold motion_task. rewrite Hq. reflexivity. }
    rewrite Hmt. clear Hmt. unfold motion_handle.
    destruct Hcmd as [Hc | Hc]; rewrite Hc; cbn [Z.eqb Pos.eqb WIFI_CMD_SCAN WIFI_CMD_MOVE].
    + unfold scan_case. cbn [tick cur set_busy_bit busy_bit Z.eqb].
      apply (busy_window (fun r => scan_seek (scan_sweep r))).
      intros r Hr. apply scan_seek_since, scan_sweep_since;
        try (intros; assumption);
        intros m Hm; unfold is_busy; rewrite toggleStep_busy; exact Hm.
    + unfold move_case. cbn [tick cur set_busy_bit busy_bit Z.eqb].
      apply (busy_window (move_steps rx)).
      intros r Hr. apply move_steps_since;
        try (intros; assumption);
        intros m Hm; unfold is_busy; rewrite toggleStep_busy; exact Hm.
  - apply reachable_idle. constructor. exact Hw.
Qed.

(** ** Averaging of the ADC *)

Lemma adc_accumulate_u32 n :
  (forall j, 0 <= adc0_get_reading j < 4096) ->
  forall k adc,
    0 <= adc -> adc + 4095 * Z.of_nat n < 4294967296 ->
    adc_accumulate u32 n k adc = adc + adc_sum n k.
Proof.
  intros Hbits. induction n as [| n IH]; intros k adc Hadc Hmax; cbn [adc_accumulate adc_sum].
  - lia.
  - pose proof (Hbits k) as Hk.
    rewrite u32_small by lia. rewrite IH by lia. lia.
Qed.

Lemma adc_accumulate_u16 n :
  forall k adc,
    0 <= adc < 65536 ->
    adc_accumulate u16 n k adc = (adc + adc_sum n k) mod 65536.
Proof.
  induction n as [| n IH]; intros k adc Hadc; cbn [adc_accumulate adc_sum].
  - rewrite Z.add_0_r, Z.mod_small; lia.
  - rewrite IH by (unfold u16, wrap; apply Z.mod_pos_bound; lia).
    unfold u16, wrap. change (2 ^ 16) with 65536.
    rewrite Z.add_mod_idemp_l by lia. f_equal. lia.
Qed.

(** With 12-bit conversions a scan sample is the mean of its
    [ADC_AVERAGE_DEPTH] conversions. *)
Lemma scan_reading_mean k :
  (forall j, 0 <= adc0_get_reading j < 4096) ->
  scan_reading k = adc_sum (Z.to_nat ADC_AVERAGE_DEPTH) k / ADC_AVERAGE_DEPTH.
Proof.
  intros Hbits. unfold scan_reading.
  rewrite adc_accumulate_u32 by (assumption || (unfold ADC_AVERAGE_DEPTH; lia)).
  reflexivity.
Qed.

(** The reading of a Status Report is the mean of what is left of the sum
    in 16 bits: it never exceeds 32. *)
Lemma heartbeat_reading_wraps k :
  heartbeat_reading k =
    (adc_sum (Z.to_nat ADC_AVERAGE_DEPTH) k mod 65536) / ADC_AVERAGE_DEPTH
  /\ 0 <= heartbeat_reading k <= 32.
Proof.
  unfold heartbeat_reading. rewrite adc_accumulate_u16 by lia.
  rewrite Z.add_0_l.
  pose proof (Z.mod_pos_bound (adc_sum (Z.to_nat ADC_AVERAGE_DEPTH) k) 65536
                ltac:(lia)) as Hm.
  set (left := adc_sum (Z.to_nat ADC_AVERAGE_DEPTH) k mod 65536) in *.
  unfold ADC_AVERAGE_DEPTH.
  assert (Hq : 0 <= left / 2000 <= 32)
    by (clear - Hm; Z.div_mod_to_equations; lia).
  rewrite u16_small by lia. split; [reflexivity | exact Hq].
Qed.

(** ** The energy-sample buffer *)

Lemma samples_from_length k0 n : length (samples_from k0 n) = n.
Proof. unfold samples_from. rewrite length_map, length_seq. reflexivity. Qed.

Lemma samples_from_S k0 n :
  samples_from k0 (S n) =
    samples_from k0 n ++ [scan_reading (k0 + ADC_AVERAGE_DEPTH * Z.of_nat n)].
Proof. unfold samples_from. rewrite seq_S, map_app. reflexivity. Qed.

Lemma store_next_sample (A0 : list Z) k0 n v :
  (n < length A0)%nat ->
  <[n := v]> (samples_from k0 n ++ drop n A0) =
    (samples_from k0 n ++ [v]) ++ drop (S n) A0.
Proof.
  intros Hn. rewrite insert_app_r_alt by (rewrite samples_from_length; lia).
  rewrite samples_from_length, Nat.sub_diag.
  destruct (lookup_lt_is_Some_2 A0 n Hn) as [a Ha].
  rewrite (drop_S A0 a n Ha). cbn. rewrite <- app_assoc. reflexivity.
Qed.

Lemma toggleStep_energy m :
  energyArray (toggleStep m) = energyArray m
  /\ energyArray_idx (toggleStep m) = energyArray_idx m
  /\ steps_todo (toggleStep m) = steps_todo m.
Proof.
  unfold toggleStep.
  repeat match goal with |- context [if ?c then _ else _] => destruct c end;
    repeat split; reflexivity.
Qed.

Lemma sample_count_step flag :
  0 <= flag -> flag mod 40 = 0 -> (flag + 1 + 39) / 40 = (flag + 39) / 40 + 1.
Proof. intros H0 Hm. clear - H0 Hm. Z.div_mod_to_equations. lia. Qed.

Lemma sample_count_stay flag :
  0 <= flag -> flag mod 40 <> 0 -> (flag + 1 + 39) / 40 = (flag + 39) / 40.
Proof. intros H0 Hm. clear - H0 Hm. Z.div_mod_to_equations. lia. Qed.

Lemma sweep_body_inv A0 k0 s :
  length A0 = 20%nat ->
  sweep_inv A0 k0 s -> sweep_cond s = true ->
  sweep_inv A0 k0 (sweep_body s)
  /\ 0 <= steps_todo (cur (snd (sweep_body s))) < steps_todo (cur (snd s)).
Proof.
  clear mesh_get_node_address wireless_link.
  intros HA (Hflag & Htodo & n & Hn & Hidx & Hk & Harr) Hcond.
  destruct s as [flag r]. cbn [fst snd] in *.
  unfold sweep_cond in Hcond. cbn [snd] in Hcond.
  apply Z.gtb_lt in Hcond. unfold STEPS_FULL_REV in *.
  unfold sweep_body, sweep_inv. cbn [fst snd]. unfold STEPS_FULL_REV.
  change ADC_SAMPLE_PERIOD with 40.
  destruct (Z.eqb_spec (flag mod 40) 0) as [Hmod | Hmod].
  - assert (Hn9 : (n < 10)%nat).
    { apply Nat2Z.inj_lt. rewrite Hn. Z.div_mod_to_equations. lia. }
    cbn [tick cur past adc_k take_sample].
    destruct (toggleStep_energy (store_sample (scan_reading (adc_k r)) (cur r)))
      as (He & Hi & Ht).
    cbn [set_steps_todo steps_todo energyArray energyArray_idx].
    rewrite He, Hi, Ht. cbn [store_sample set_energy steps_todo energyArray
                               energyArray_idx].
    rewrite Htodo, s16_small by lia. split; [| lia].
    split; [lia |]. split; [lia |]. exists (S n).
    rewrite Hidx, Hk, Harr, Nat2Z.id.
    rewrite sample_count_step by lia. rewrite <- Hn.
    split; [lia |]. split; [rewrite u8_small by lia; lia |].
    split; [unfold ADC_AVERAGE_DEPTH; lia |].
    rewrite store_next_sample by lia. rewrite samples_from_S. reflexivity.
  - cbn [tick cur past adc_k].
    destruct (toggleStep_energy (cur r)) as (He & Hi & Ht).
    cbn [set_steps_todo steps_todo energyArray energyArray_idx].
    rewrite He, Hi, Ht, Htodo, s16_small by lia. split; [| lia].
    split; [lia |]. split; [lia |]. exists n.
    rewrite sample_count_stay by lia. auto.
Qed.

Lemma sweep_loop_samples A0 k r1 fuel :
  length A0 = 20%nat ->
  steps_todo (cur r1) = STEPS_FULL_REV ->
  energyArray_idx (cur r1) = 0 ->
  energyArray (cur r1) = A0 ->
  adc_k r1 = k ->
  STEPS_FULL_REV <= Z.of_nat fuel ->
  let r := snd (while_loop fuel sweep_cond sweep_body (0, r1)) in
  energyArray_idx (cur r) = ENERGY_SAMPLES
  /\ adc_k r = k + ENERGY_SAMPLES * ADC_AVERAGE_DEPTH
  /\ energyArray (cur r) = samples_from k 10 ++ drop 10 A0
  /\ steps_todo (cur r) = 0.
Proof.
  intros HA H1 H2 H3 H4 Hfuel r. subst r.
  destruct (while_loop_exit (sweep_inv A0 k)
              (fun s => steps_todo (cur (snd s))) sweep_cond sweep_body
              (fun s => sweep_body_inv A0 k s HA) fuel (0, r1))
    as [(Hflag & Htodo & n & Hn & Hidx & Hk & Harr) Hexit].
  - unfold sweep_inv. cbn [fst snd]. rewrite H1, H2, H3, H4.
    split; [unfold STEPS_FULL_REV; lia |]. split; [lia |].
    exists O. cbn. rewrite drop_0. repeat split; lia.
  - cbn [snd]. rewrite H1. exact Hfuel.
  - set (s := while_loop _ _ _ _) in *. unfold sweep_cond in Hexit.
    unfold STEPS_FULL_REV in *.
    destruct (Z.gtb_spec (steps_todo (cur (snd s))) 0) as [| Hle];
      [discriminate |].
    assert (Hfl : fst s = 400) by lia.
    rewrite Hfl in Hn. change ((400 + 39) / 40) with 10 in Hn.
    assert (n = 10%nat) by lia. subst n.
    repeat split.
    + rewrite Hidx. reflexivity.
    + rewrite Hk. unfold ENERGY_SAMPLES, ADC_AVERAGE_DEPTH. lia.
    + exact Harr.
    + lia.
Qed.

Lemma scan_sweep_samples m k past0 :
  length (energyArray m) = 20%nat ->
  let r := scan_sweep {| cur := m; adc_k := k; past := past0 |} in
  energyArray_idx (cur r) = ENERGY_SAMPLES
  /\ adc_k r = k + ENERGY_SAMPLES * ADC_AVERAGE_DEPTH
  /\ energyArray (cur r) = samples_from k 10 ++ drop 10 (energyArray m)
  /\ steps_todo (cur r) = 0.
Proof.
  intros HA. unfold scan_sweep. cbv zeta.
  apply sweep_loop_samples; [assumption | reflexivity | reflexivity | reflexivity | reflexivity |].
  cbn [tick cur steps_todo setDirection enableDrive CW DRIVE_ON FIOSET FIOCLR
       set_fio2 set_energy set_steps_todo].
  rewrite s16_small; unfold STEPS_FULL_REV; lia.
Qed.

Lemma scan_seek_energy r :
  energyArray (cur (scan_seek r)) = energyArray (cur r)
  /\ energyArray_idx (cur (scan_seek r)) = energyArray_idx (cur r)
  /\ adc_k (scan_seek r) = adc_k r.
Proof.
  unfold scan_seek. cbv zeta.
  apply (while_loop_inv
           (fun r' => energyArray (cur r') = energyArray (cur r)
                      /\ energyArray_idx (cur r') = energyArray_idx (cur r)
                      /\ adc_k r' = adc_k r)).
  - intros s (He & Hi & Hk) _. unfold seek_body.
    cbn [tick cur adc_k set_steps_todo energyArray energyArray_idx].
    destruct (toggleStep_energy (cur s)) as (He' & Hi' & _).
    rewrite He', Hi'. auto.
  - cbn [tick cur adc_k]. destruct (_ >? 0); repeat split; reflexivity.
Qed.

Lemma cur_tick f r : cur (tick f r) = f (cur r).
Proof. reflexivity. Qed.

Lemma adc_k_tick f r : adc_k (tick f r) = adc_k r.
Proof. reflexivity. Qed.

Lemma motion_handle_scan rx r :
  CMD_UNPACK rx = WIFI_CMD_SCAN ->
  motion_handle rx r = tick next_command (scan_case r).
Proof.
  intros Hcmd. unfold motion_handle. rewrite Hcmd.
  change (WIFI_CMD_SCAN =? WIFI_CMD_SCAN) with true. cbv iota.
  assert (Hb : busy_bit (cur (scan_case r)) = 0) by reflexivity.
  rewrite Hb. reflexivity.
Qed.

Lemma scan_case_energy m k :
  length (energyArray m) = 20%nat ->
  energyArray_idx (cur (scan_case (start m k))) = ENERGY_SAMPLES
  /\ energyArray (cur (scan_case (start m k))) =
       samples_from k 10 ++ drop 10 (energyArray m)
  /\ adc_k (scan_case (start m k)) = k + ENERGY_SAMPLES * ADC_AVERAGE_DEPTH.
Proof.
  intros HA. unfold scan_case. rewrite cur_tick, adc_k_tick.
  change (tick (set_busy_bit 1) (start m k))
    with {| cur := set_busy_bit 1 m; adc_k := k; past := [m] |}.
  destruct (scan_sweep_samples (set_busy_bit 1 m) k [m] HA)
    as (Hidx & Hadc & Harr & _).
  destruct (scan_seek_energy
              (scan_sweep {| cur := set_busy_bit 1 m; adc_k := k;
                             past := [m] |}))
    as (He & Hi & Hk).
  rewrite Hk, <- Hi, <- He in *.
  revert Hidx Hadc Harr.
  generalize (scan_seek (scan_sweep {| cur := set_busy_bit 1 m; adc_k := k;
                                       past := [m] |})).
  intros sought Hidx Hadc Harr. cbn [set_busy_bit energyArray energyArray_idx].
  repeat split; assumption.
Qed.

(** C9. Whatever the buffer held and wherever [energyArray_idx] stood, a
    SCAN leaves [energyArray_idx] at [ENERGY_SAMPLES] and the first
    [ENERGY_SAMPLES] entries equal to the averaged readings taken during
    this scan, in order, each from the next [ADC_AVERAGE_DEPTH]
    conversions; the entries behind them are never written. *)
Theorem scan_overwrites_energy_buffer rx m k :
  CMD_UNPACK rx = WIFI_CMD_SCAN ->
  length (energyArray m) = 20%nat ->
  energyArray_idx (cur (motion_handle rx (start m k))) = ENERGY_SAMPLES
  /\ energyArray (cur (motion_handle rx (start m k))) =
       samples_from k (Z.to_nat ENERGY_SAMPLES)
       ++ drop (Z.to_nat ENERGY_SAMPLES) (energyArray m)
  /\ adc_k (motion_handle rx (start m k)) =
       k + ENERGY_SAMPLES * ADC_AVERAGE_DEPTH.
Proof.
  intros Hcmd HA. rewrite (motion_handle_scan rx _ Hcmd).
  rewrite cur_tick, adc_k_tick.
  generalize (scan_case_energy m k HA).
  generalize (scan_case (start m k)). intros r (Hidx & Harr & Hadc).
  cbn [next_command set_command energyArray energyArray_idx].
  repeat split; assumption.
Qed.

Lemma reachable_energy_length w :
  reachable w -> length (energyArray (motor w)) = 20%nat.
Proof.
  induction 1 as [| w _ IH | pkt w _ IH | w _ IH].
  - reflexivity.
  - rewrite request_motor. exact IH.
  - rewrite decoding_motor. exact IH.
  - unfold motion_task. destruct (motion_queue w) as [| rx q]; [exact IH |].
    cbn [motor].
    destruct (Z.eqb_spec (CMD_UNPACK rx) WIFI_CMD_SCAN) as [Hs | Hs].
    + rewrite (motion_handle_scan rx _ Hs), cur_tick.
      generalize (scan_case_energy (motor w) (adc_n w) IH).
      generalize (scan_case (start (motor w) (adc_n w))).
      intros r (_ & Harr & _).
      cbn [next_command set_command energyArray].
      rewrite Harr, length_app, samples_from_length, length_drop, IH.
      reflexivity.
    + unfold motion_handle. destruct (_ =? WIFI_CMD_SCAN) eqn:E;
        [apply Z.eqb_eq in E; contradiction |].
      assert (Hrun : run_since (fun m => length (energyArray m) = 20%nat) []
                (if CMD_UNPACK rx =? WIFI_CMD_MOVE
                 then move_case rx (start (motor w) (adc_n w))
                 else start (motor w) (adc_n w))).
      { destruct (_ =? WIFI_CMD_MOVE); [| apply start_since, IH].
        unfold move_case. apply tick_since; [intros m Hm; exact Hm |].
        apply move_steps_since; try (intros; assumption).
        - intros m Hm. destruct (toggleStep_energy m) as (He & _).
          rewrite He. exact Hm.
        - apply tick_since; [intros m Hm; exact Hm | apply start_since, IH]. }
      destruct Hrun as [Hc _]. revert Hc.
      generalize (if CMD_UNPACK rx =? WIFI_CMD_MOVE
                  then move_case rx (start (motor w) (adc_n w))
                  else start (motor w) (adc_n w)).
      intros r Hc. destruct (_ =? 0); [| exact Hc].
      rewrite cur_tick. exact Hc.
Qed.

(** ** The position of the greatest energy sample *)

Lemma max_energy_loop_spec a fuel :
  forall cur_idx max_idx,
    0 <= max_idx <= cur_idx -> max_idx < ENERGY_SAMPLES ->
    cur_idx + Z.of_nat fuel = ENERGY_SAMPLES ->
    (forall j, 0 <= j < cur_idx ->
               nth (Z.to_nat j) a 0 <= nth (Z.to_nat max_idx) a 0) ->
    (forall j, 0 <= j < max_idx ->
               nth (Z.to_nat j) a 0 < nth (Z.to_nat max_idx) a 0) ->
    0 <= max_energy_loop fuel a cur_idx max_idx < ENERGY_SAMPLES
    /\ (forall j, 0 <= j < ENERGY_SAMPLES ->
           nth (Z.to_nat j) a 0
           <= nth (Z.to_nat (max_energy_loop fuel a cur_idx max_idx)) a 0)
    /\ (forall j, 0 <= j < max_energy_loop fuel a cur_idx max_idx ->
           nth (Z.to_nat j) a 0
           < nth (Z.to_nat (max_energy_loop fuel a cur_idx max_idx)) a 0).
Proof.
  unfold ENERGY_SAMPLES.
  induction fuel as [| fuel IH]; intros c mx Hmx Hlt Hfuel Hall Hfirst; cbn.
  - replace c with 10 in * by lia. repeat split; try lia; assumption.
  - unfold ENERGY_SAMPLES. destruct (Z.ltb_spec c 10) as [Hc | Hc]; [| lia].
    rewrite u8_small by lia.
    destruct (Z.gtb_spec (nth (Z.to_nat c) a 0) (nth (Z.to_nat mx) a 0))
      as [Hgt | Hle].
    + apply IH; try lia.
      * intros j Hj. destruct (Z.eq_dec j c) as [-> | Hne]; [lia |].
        specialize (Hall j ltac:(lia)). lia.
      * intros j Hj. specialize (Hall j ltac:(lia)). lia.
    + apply IH; try lia; try assumption.
      intros j Hj. destruct (Z.eq_dec j c) as [-> | Hne]; [lia |].
      apply Hall. lia.
Qed.

(** C5. With a buffer that holds the ten samples of a scan,
    [get_max_energy_pos] returns [ADC_SAMPLE_PERIOD / 2] times the first
    index, among the first [ENERGY_SAMPLES] entries, whose value is the
    greatest. *)
Theorem max_energy_pos_first_argmax m :
  (Z.to_nat ENERGY_SAMPLES <= length (energyArray m))%nat ->
  exists i,
    first_argmax (take (Z.to_nat ENERGY_SAMPLES) (energyArray m)) i
    /\ get_max_energy_pos m = (ADC_SAMPLE_PERIOD / 2) * Z.of_nat i.
Proof.
  change (Z.to_nat ENERGY_SAMPLES) with 10%nat. intros Hlen.
  destruct (max_energy_loop_spec (energyArray m) 10 0 0)
    as (Hr & Hall & Hfirst); try (unfold ENERGY_SAMPLES; lia).
  unfold get_max_energy_pos, max_sample_index.
  change (Z.to_nat ENERGY_SAMPLES) with 10%nat.
  set (r := max_energy_loop 10 (energyArray m) 0 0) in *.
  unfold ENERGY_SAMPLES in *. exists (Z.to_nat r).
  assert (Hnth : forall j, (j < 10)%nat ->
            nth j (take 10 (energyArray m)) 0 = nth j (energyArray m) 0).
  { intros j Hj. rewrite nth_firstn.
    destruct (Nat.ltb_spec j 10); [reflexivity | lia]. }
  split.
  - unfold first_argmax. rewrite length_take_le by exact Hlen.
    split; [lia |]. split.
    + intros j Hj. rewrite !Hnth by lia.
      specialize (Hall (Z.of_nat j) ltac:(lia)).
      rewrite Nat2Z.id in Hall. exact Hall.
    + intros j Hj. rewrite !Hnth by lia.
      specialize (Hfirst (Z.of_nat j) ltac:(lia)).
      rewrite Nat2Z.id in Hfirst. exact Hfirst.
  - change (ADC_SAMPLE_PERIOD / 2) with 20.
    rewrite u8_small by lia. lia.
Qed.

(** ** What the seek and the status report do not do *)

(** With a delta that is not positive the seek loop is not entered: the
    direction pin is written and the motor stays where it is. *)
Lemma scan_seek_stays r :
  s16 (get_max_energy_pos (cur r) - current_pos (cur r)) <= 0 ->
  scan_seek r =
    tick (fun m => setDirection (if steps_todo m >? 0 then CW else CCW) m)
         (tick (fun m => set_steps_todo
                           (s16 (get_max_energy_pos m - current_pos m)) m) r).
Proof.
  intros Hd. unfold scan_seek. cbv zeta.
  set (r2 := tick _ (tick _ r)).
  assert (Hs : steps_todo (cur r2)
               = s16 (get_max_energy_pos (cur r) - current_pos (cur r))).
  { unfold r2. cbn [tick cur set_steps_todo steps_todo].
    destruct (_ >? 0); reflexivity. }
  rewrite Hs. replace (Z.to_nat _) with O by lia. reflexivity.
Qed.

(** The bytes of a Status Report come from [busy], [position] and the
    16-bit accumulation of the ADC: no variable of the motion half is read. *)
Lemma status_report_bytes w :
  wireless_link (tx_n (comm w)) = true ->
  outbox (comm (wifi_slave_heartbeat w)) =
    outbox (comm w)
    ++ [(WIFI_MASTER_ADDR,
         [WIFI_CMD_GIVE_STATUS; u8 (u8 (busy (comm w)));
          u8 (Z.land (Z.shiftr (heartbeat_reading (adc_n w)) 8) 15);
          u8 (Z.land (heartbeat_reading (adc_n w)) 255);
          u8 (position (comm w))])].
Proof.
  intros Hlink. unfold wifi_slave_heartbeat, wireless_send. cbn.
  rewrite Hlink. reflexivity.
Qed.

Lemma reachable_comm_statics w :
  reachable w -> busy (comm w) = 0 /\ position (comm w) = 0.
Proof.
  induction 1 as [| w _ IH | pkt w _ IH | w _ IH].
  - split; reflexivity.
  - unfold wifi_slave_request. destruct (_ && _); [| exact IH].
    unfold wireless_send. cbn. exact IH.
  - unfold wifi_pkt_decoding, wifi_slave_heartbeat, wireless_send, xQueueSend.
    repeat match goal with
           | |- context [if ?c then _ else _] => destruct c
           end; cbn; exact IH.
  - unfold motion_task. destruct (motion_queue w); exact IH.
Qed.

(** * Further properties *)

(** ** The pins of port 2 *)

Lemma pin_high_testbit p m :
  0 <= p -> pin_high (2 ^ p) m = Z.testbit (fio2 m) p.
Proof.
  intros Hp. unfold pin_high.
  destruct (Z.testbit (fio2 m) p) eqn:Hb.
  - destruct (Z.eqb_spec (Z.land (fio2 m) (2 ^ p)) 0) as [H0 | H0];
      [| reflexivity].
    assert (Hbit : Z.testbit (Z.land (fio2 m) (2 ^ p)) p = true)
      by (rewrite Z.land_spec, Hb, Z.pow2_bits_true by lia; reflexivity).
    rewrite H0, Z.bits_0 in Hbit. discriminate.
  - replace (Z.land (fio2 m) (2 ^ p)) with 0; [reflexivity |].
    symmetry. apply Z.bits_inj'. intros i Hi.
    rewrite Z.land_spec, Z.bits_0, Z.pow2_bits_eqb by lia.
    destruct (Z.eqb_spec p i) as [-> | Hne];
      [rewrite Hb; reflexivity | apply andb_false_r].
Qed.

Lemma FIOSET_testbit p q m :
  0 <= p -> 0 <= q ->
  Z.testbit (fio2 (FIOSET (2 ^ q) m)) p = Z.testbit (fio2 m) p || (q =? p).
Proof.
  intros Hp Hq. unfold FIOSET. cbn [fio2 set_fio2].
  rewrite Z.lor_spec, Z.pow2_bits_eqb by lia. reflexivity.
Qed.

Lemma FIOCLR_testbit p q m :
  0 <= p -> 0 <= q ->
  Z.testbit (fio2 (FIOCLR (2 ^ q) m)) p
  = Z.testbit (fio2 m) p && negb (q =? p).
Proof.
  intros Hp Hq. unfold FIOCLR. cbn [fio2 set_fio2].
  rewrite Z.ldiff_spec, Z.pow2_bits_eqb by lia. reflexivity.
Qed.

Lemma toggleStep_fio2 m :
  fio2 (toggleStep m)
  = if pin_high STEP_PIN m then fio2 (FIOCLR STEP_PIN m)
    else fio2 (FIOSET STEP_PIN m).
Proof.
  unfold toggleStep. destruct (pin_high STEP_PIN m); [reflexivity |].
  repeat match goal with |- context [if ?c then _ else _] => destruct c end;
    reflexivity.
Qed.

(** A toggle inverts the STEP pin and leaves every other pin of the port. *)
Lemma toggleStep_pins p m :
  0 <= p ->
  Z.testbit (fio2 (toggleStep m)) p
  = if p =? 3 then negb (Z.testbit (fio2 m) 3) else Z.testbit (fio2 m) p.
Proof.
  intros Hp. rewrite toggleStep_fio2. change STEP_PIN with (2 ^ 3).
  rewrite (pin_high_testbit 3) by lia.
  destruct (Z.testbit (fio2 m) 3) eqn:Hs.
  - rewrite FIOCLR_testbit by lia. rewrite (Z.eqb_sym 3 p).
    destruct (Z.eqb_spec p 3) as [-> | Hne]; cbn;
      [apply andb_false_r | apply andb_true_r].
  - rewrite FIOSET_testbit by lia. rewrite (Z.eqb_sym 3 p).
    destruct (Z.eqb_spec p 3) as [-> | Hne]; cbn;
      [apply orb_true_r | apply orb_false_r].
Qed.

Lemma toggleStep_step_pin m :
  pin_high STEP_PIN (toggleStep m) = negb (pin_high STEP_PIN m).
Proof.
  change STEP_PIN with (2 ^ 3). rewrite !pin_high_testbit by lia.
  rewrite toggleStep_pins by lia. reflexivity.
Qed.

Lemma toggleStep_direction_pin m :
  pin_high DIRECTION_PIN (toggleStep m) = pin_high DIRECTION_PIN m.
Proof.
  change DIRECTION_PIN with (2 ^ 1). rewrite !pin_high_testbit by lia.
  rewrite toggleStep_pins by lia. reflexivity.
Qed.

Lemma toggleStep_enable_pin m :
  pin_high ENABLE_PIN (toggleStep m) = pin_high ENABLE_PIN m.
Proof.
  change ENABLE_PIN with (2 ^ 0). rewrite !pin_high_testbit by lia.
  rewrite toggleStep_pins by lia. reflexivity.
Qed.

(** ** Sequences of toggles *)

Lemma toggleStep_position m :
  in_range m ->
  current_pos (toggleStep m)
  = if pin_high STEP_PIN m then current_pos m
    else (current_pos m + (if pin_high DIRECTION_PIN m then 1 else -1))
         mod STEPS_PER_REV.
Proof.
  intros Hr. destruct (pin_high STEP_PIN m) eqn:Hs.
  - apply toggleStep_falling, Hs.
  - destruct (pin_high DIRECTION_PIN m) eqn:Hd.
    + apply toggleStep_forward; assumption.
    + rewrite toggleStep_backward by assumption.
      unfold in_range, STEPS_PER_REV in *.
      destruct (Z.gtb_spec (current_pos m) 0).
      * rewrite Z.mod_small; lia.
      * replace (current_pos m) with 0 by lia. reflexivity.
Qed.

Lemma toggles_motion n :
  forall m,
    in_range m ->
    in_range (toggles n m)
    /\ current_pos (toggles n m)
       = (current_pos m
          + (if pin_high DIRECTION_PIN m then 1 else -1)
            * rising_edges (pin_high STEP_PIN m) (Z.of_nat n))
         mod STEPS_PER_REV
    /\ pin_high STEP_PIN (toggles n m)
       = xorb (pin_high STEP_PIN m) (Nat.odd n)
    /\ pin_high DIRECTION_PIN (toggles n m) = pin_high DIRECTION_PIN m
    /\ pin_high ENABLE_PIN (toggles n m) = pin_high ENABLE_PIN m.
Proof.
  induction n as [| n IH]; intros m Hr.
  - cbn [toggles]. split; [exact Hr |]. split.
    + unfold rising_edges, in_range, STEPS_PER_REV in *.
      destruct (pin_high STEP_PIN m); cbn; rewrite ?Z.mul_0_r, ?Z.add_0_r;
        rewrite Z.mod_small; lia.
    + rewrite xorb_false_r. auto.
  - cbn [toggles].
    destruct (IH (toggleStep m) (toggleStep_in_range m Hr))
      as (Hin & Hpos & Hstep & Hdir & Hen).
    split; [exact Hin |].
    rewrite Hpos, Hstep, Hdir, Hen.
    rewrite toggleStep_step_pin, toggleStep_direction_pin,
      toggleStep_enable_pin, toggleStep_position by exact Hr.
    split; [| split; [| split; reflexivity]].
    + unfold rising_edges, STEPS_PER_REV.
      set (d := if pin_high DIRECTION_PIN m then 1 else -1).
      destruct (pin_high STEP_PIN m); cbn [negb].
      * f_equal. f_equal. f_equal. f_equal. lia.
      * rewrite Z.add_mod_idemp_l by lia. f_equal.
        replace (Z.of_nat (S n) + 1) with (Z.of_nat n + 0 + 1 * 2) by lia.
        rewrite Z.div_add by lia. lia.
    + rewrite Nat.odd_succ, <- Nat.negb_odd.
      destruct (pin_high STEP_PIN m), (Nat.odd n); reflexivity.
Qed.

Lemma same_motion_refl m : same_motion m m.
Proof. split; reflexivity. Qed.

Lemma same_motion_trans m1 m2 m3 :
  same_motion m1 m2 -> same_motion m2 m3 -> same_motion m1 m3.
Proof. intros [H1 H2] [H3 H4]. split; congruence. Qed.

Lemma same_motion_pin mask m1 m2 :
  same_motion m1 m2 -> pin_high mask m1 = pin_high mask m2.
Proof. intros [_ H]. unfold pin_high. rewrite H. reflexivity. Qed.

Lemma toggleStep_same m1 m2 :
  same_motion m1 m2 -> same_motion (toggleStep m1) (toggleStep m2).
Proof.
  intros [Hp Hf]. unfold toggleStep, pin_high, FIOSET, FIOCLR.
  cbn [fio2 set_fio2 current_pos set_current_pos]. rewrite Hp, Hf.
  repeat match goal with |- context [if ?c then _ else _] => destruct c end;
    split; cbn [fio2 set_fio2 current_pos set_current_pos]; congruence.
Qed.

Lemma toggles_same n :
  forall m1 m2, same_motion m1 m2 -> same_motion (toggles n m1) (toggles n m2).
Proof.
  induction n as [| n IH]; intros m1 m2 H; cbn [toggles];
    [exact H | apply IH, toggleStep_same, H].
Qed.

Lemma toggleStep_todo2 m : steps_todo2 (toggleStep m) = steps_todo2 m.
Proof.
  unfold toggleStep.
  repeat match goal with |- context [if ?c then _ else _] => destruct c end;
    reflexivity.
Qed.

Lemma s8_range x : -128 <= s8 x < 128.
Proof.
  unfold s8, swrap. change (2 ^ (8 - 1)) with 128. change (2 ^ 8) with 256.
  pose proof (Z.mod_pos_bound (x + 128) 256 ltac:(lia)). lia.
Qed.

(** The loop of MOVE makes as many toggles as [steps_todo2] holds. *)
Lemma move_loop_toggles n :
  forall r,
    steps_todo2 (cur r) = Z.of_nat n -> Z.of_nat n <= 127 ->
    same_motion (cur (while_loop n move_cond move_body r)) (toggles n (cur r))
    /\ steps_todo2 (cur (while_loop n move_cond move_body r)) = 0.
Proof.
  induction n as [| n IH]; intros r Hs Hle; cbn [while_loop toggles].
  - split; [apply same_motion_refl | exact Hs].
  - unfold move_cond at 1 3. rewrite Hs.
    destruct (Z.gtb_spec (Z.of_nat (S n)) 0) as [_ | Hneg]; [| lia].
    assert (Hnext : steps_todo2 (cur (move_body r)) = Z.of_nat n).
    { unfold move_body. cbn [tick cur set_steps_todo2 steps_todo2].
      rewrite toggleStep_todo2, Hs, s8_small by lia. lia. }
    destruct (IH (move_body r) Hnext ltac:(lia)) as [Hsame Hzero].
    split; [| exact Hzero].
    eapply same_motion_trans; [exact Hsame |].
    apply toggles_same. unfold move_body. split; reflexivity.
Qed.

(** The seek loop of SCAN likewise. *)
Lemma seek_loop_toggles n :
  forall r,
    steps_todo (cur r) = Z.of_nat n -> Z.of_nat n <= 32767 ->
    same_motion (cur (while_loop n seek_cond seek_body r)) (toggles n (cur r))
    /\ steps_todo (cur (while_loop n seek_cond seek_body r)) = 0.
Proof.
  induction n as [| n IH]; intros r Hs Hle; cbn [while_loop toggles].
  - split; [apply same_motion_refl | exact Hs].
  - unfold seek_cond at 1 3. rewrite Hs.
    destruct (Z.gtb_spec (Z.of_nat (S n)) 0) as [_ | Hneg]; [| lia].
    assert (Hnext : steps_todo (cur (seek_body r)) = Z.of_nat n).
    { unfold seek_body. cbn [tick cur set_steps_todo steps_todo].
      destruct (toggleStep_energy (cur r)) as (_ & _ & Ht).
      rewrite Ht, Hs, s16_small by lia. lia. }
    destruct (IH (seek_body r) Hnext ltac:(lia)) as [Hsame Hzero].
    split; [| exact Hzero].
    eapply same_motion_trans; [exact Hsame |].
    apply toggles_same. unfold seek_body. split; reflexivity.
Qed.

(** The sweep loop of SCAN: the samples taken on the way move nothing. *)
Lemma sweep_loop_toggles n :
  forall flag r,
    steps_todo (cur r) = Z.of_nat n -> Z.of_nat n <= 32767 ->
    same_motion (cur (snd (while_loop n sweep_cond sweep_body (flag, r))))
                (toggles n (cur r)).
Proof.
  induction n as [| n IH]; intros flag r Hs Hle; cbn [while_loop toggles].
  - apply same_motion_refl.
  - unfold sweep_cond at 1. cbn [snd]. rewrite Hs.
    destruct (Z.gtb_spec (Z.of_nat (S n)) 0) as [_ | Hneg]; [| lia].
    unfold sweep_body at 2. cbn [fst snd].
    set (r1 := if flag mod ADC_SAMPLE_PERIOD =? 0 then take_sample r else r).
    assert (H1 : same_motion (cur r1) (cur r) /\ steps_todo (cur r1) = Z.of_nat (S n)).
    { unfold r1. destruct (_ =? 0); [| split; [apply same_motion_refl | exact Hs]].
      split; [split; reflexivity | exact Hs]. }
    destruct H1 as [Hsame1 Hs1]. clearbody r1.
    eapply same_motion_trans.
    + apply IH; [| lia].
      cbn [tick cur set_steps_todo steps_todo].
      destruct (toggleStep_energy (cur r1)) as (_ & _ & Ht).
      rewrite Ht, Hs1, s16_small by lia. lia.
    + apply toggles_same. cbn [tick cur].
      eapply same_motion_trans; [| apply toggleStep_same, Hsame1].
      split; reflexivity.
Qed.

(** X1. What [n] calls of [toggleStep] do: the position changes, in the
    direction the DIRECTION pin gives, once for each toggle that raises the
    STEP pin, that is by half of [n]; it wraps modulo [STEPS_PER_REV] and
    stays in range; the STEP pin ends inverted when [n] is odd and no other
    pin changes. *)
Theorem toggle_sequence n m :
  in_range m ->
  in_range (toggles n m)
  /\ current_pos (toggles n m)
     = (current_pos m
        + (if pin_high DIRECTION_PIN m then 1 else -1)
          * rising_edges (pin_high STEP_PIN m) (Z.of_nat n))
       mod STEPS_PER_REV
  /\ pin_high STEP_PIN (toggles n m)
     = xorb (pin_high STEP_PIN m) (Nat.odd n)
  /\ pin_high DIRECTION_PIN (toggles n m) = pin_high DIRECTION_PIN m
  /\ pin_high ENABLE_PIN (toggles n m) = pin_high ENABLE_PIN m.
Proof. apply toggles_motion. Qed.

(** ** MOVE *)

Lemma setDirection_motion d m :
  pin_high DIRECTION_PIN (setDirection d m) = d
  /\ pin_high STEP_PIN (setDirection d m) = pin_high STEP_PIN m
  /\ pin_high ENABLE_PIN (setDirection d m) = pin_high ENABLE_PIN m
  /\ current_pos (setDirection d m) = current_pos m.
Proof.
  unfold setDirection. change DIRECTION_PIN with (2 ^ 1).
  change STEP_PIN with (2 ^ 3). change ENABLE_PIN with (2 ^ 0).
  rewrite !pin_high_testbit by lia.
  destruct d; rewrite ?FIOSET_testbit, ?FIOCLR_testbit by lia; cbn;
    rewrite ?orb_true_r, ?orb_false_r, ?andb_true_r, ?andb_false_r; auto.
Qed.

Lemma enableDrive_motion d m :
  pin_high ENABLE_PIN (enableDrive d m) = d
  /\ pin_high STEP_PIN (enableDrive d m) = pin_high STEP_PIN m
  /\ pin_high DIRECTION_PIN (enableDrive d m) = pin_high DIRECTION_PIN m
  /\ current_pos (enableDrive d m) = current_pos m.
Proof.
  unfold enableDrive. change DIRECTION_PIN with (2 ^ 1).
  change STEP_PIN with (2 ^ 3). change ENABLE_PIN with (2 ^ 0).
  rewrite !pin_high_testbit by lia.
  destruct d; rewrite ?FIOSET_testbit, ?FIOCLR_testbit by lia; cbn;
    rewrite ?orb_true_r, ?orb_false_r, ?andb_true_r, ?andb_false_r; auto.
Qed.

Lemma nat_odd_Z n : Nat.odd n = Z.odd (Z.of_nat n).
Proof.
  induction n as [| n IH]; [reflexivity |].
  rewrite Nat.odd_succ, Nat2Z.inj_succ, Z.odd_succ.
  rewrite <- Nat.negb_odd, <- Z.negb_odd, IH. reflexivity.
Qed.

Lemma odd_abs p : Z.odd (Z.abs p) = Z.odd p.
Proof. destruct p as [| q | q]; reflexivity. Qed.

Lemma motion_handle_move rx r :
  CMD_UNPACK rx = WIFI_CMD_MOVE ->
  motion_handle rx r = tick next_command (move_case rx r).
Proof.
  intros Hcmd. unfold motion_handle. rewrite Hcmd.
  change (WIFI_CMD_MOVE =? WIFI_CMD_SCAN) with false.
  change (WIFI_CMD_MOVE =? WIFI_CMD_MOVE) with true. cbv iota.
  assert (Hb : busy_bit (cur (move_case rx r)) = 0) by reflexivity.
  rewrite Hb. reflexivity.
Qed.

Lemma move_steps_motion rx r :
  move_param rx <> -128 ->
  same_motion (cur (move_steps rx r))
              (toggles (Z.to_nat (Z.abs (move_param rx)))
                       (setDirection (move_param rx >? 0) (cur r)))
  /\ steps_todo2 (cur (move_steps rx r)) = 0.
Proof.
  intros Hne. pose proof (s8_range (PARAM1_UNPACK rx)) as Hp.
  fold (move_param rx) in Hp. unfold move_steps. cbv zeta.
  set (r3 := tick _ (tick _ (tick _ r))).
  assert (H3 : steps_todo2 (cur r3) = Z.abs (move_param rx)).
  { unfold r3. cbn [tick cur set_steps_todo2 steps_todo2].
    destruct (move_param rx >? 0); cbn; rewrite s8_small; lia. }
  assert (Hsame : same_motion (cur r3)
                    (setDirection (move_param rx >? 0) (cur r))).
  { unfold r3. cbn [tick cur set_steps_todo2 steps_todo2].
    destruct (move_param rx >? 0); split; reflexivity. }
  clearbody r3. rewrite H3.
  destruct (move_loop_toggles (Z.to_nat (Z.abs (move_param rx))) r3)
    as [Hloop Hzero]; [lia | lia |].
  split; [| exact Hzero].
  eapply same_motion_trans; [exact Hloop | apply toggles_same, Hsame].
Qed.

Lemma move_handle_motion rx m k :
  CMD_UNPACK rx = WIFI_CMD_MOVE ->
  in_range m ->
  move_param rx <> -128 ->
  current_pos (cur (motion_handle rx (start m k)))
  = (current_pos m
     + Z.sgn (move_param rx)
       * rising_edges (pin_high STEP_PIN m) (Z.abs (move_param rx)))
    mod STEPS_PER_REV
  /\ pin_high DIRECTION_PIN (cur (motion_handle rx (start m k)))
     = (move_param rx >? 0)
  /\ pin_high STEP_PIN (cur (motion_handle rx (start m k)))
     = xorb (pin_high STEP_PIN m) (Z.odd (move_param rx))
  /\ steps_todo2 (cur (motion_handle rx (start m k))) = 0
  /\ busy_bit (cur (motion_handle rx (start m k))) = 0.
Proof.
  intros Hcmd Hr Hne. rewrite (motion_handle_move rx _ Hcmd).
  rewrite cur_tick. unfold move_case. rewrite cur_tick.
  destruct (move_steps_motion rx (tick (set_busy_bit 1) (start m k)) Hne)
    as [Hsame Hzero].
  change (cur (tick (set_busy_bit 1) (start m k)))
    with (set_busy_bit 1 m) in Hsame.
  destruct (setDirection_motion (move_param rx >? 0) (set_busy_bit 1 m))
    as (Hd & Hs & _ & Hp).
  change (pin_high STEP_PIN (set_busy_bit 1 m))
    with (pin_high STEP_PIN m) in Hs.
  change (current_pos (set_busy_bit 1 m)) with (current_pos m) in Hp.
  destruct (toggles_motion (Z.to_nat (Z.abs (move_param rx)))
              (setDirection (move_param rx >? 0) (set_busy_bit 1 m)))
    as (_ & Tpos & Tstep & Tdir & _).
  { unfold in_range. rewrite Hp. exact Hr. }
  rewrite Hd, Hs, Hp in *.
  revert Hsame Hzero.
  generalize (cur (move_steps rx (tick (set_busy_bit 1) (start m k)))).
  intros b Hsame Hzero.
  rewrite <- (same_motion_pin STEP_PIN _ _ Hsame) in Tstep.
  rewrite <- (same_motion_pin DIRECTION_PIN _ _ Hsame) in Tdir.
  destruct Hsame as [Hbpos _]. rewrite <- Hbpos in Tpos.
  cbn [next_command set_command set_busy_bit current_pos steps_todo2
       busy_bit].
  change (pin_high DIRECTION_PIN (next_command (set_busy_bit 0 b)))
    with (pin_high DIRECTION_PIN b).
  change (pin_high STEP_PIN (next_command (set_busy_bit 0 b)))
    with (pin_high STEP_PIN b).
  rewrite Tpos, Tstep, Tdir, Z2Nat.id, nat_odd_Z, Z2Nat.id, odd_abs by lia.
  repeat split; try assumption.
  f_equal. f_equal.
  destruct (Z.gtb_spec (move_param rx) 0) as [Hpos | Hnp].
  - rewrite Z.sgn_pos by lia. reflexivity.
  - destruct (Z.eq_dec (move_param rx) 0) as [H0 | Hn0].
    + rewrite H0. unfold rising_edges.
      destruct (pin_high STEP_PIN m); reflexivity.
    + rewrite Z.sgn_neg by lia. reflexivity.
Qed.

(** X2. A MOVE whose parameter [p] is not -128 makes [|p|] toggles in the
    direction of the sign of [p]: the position changes by half of [|p|],
    rounded up when the STEP pin was low and down when it was high. *)
Theorem move_final_position rx m k :
  CMD_UNPACK rx = WIFI_CMD_MOVE ->
  in_range m ->
  move_param rx <> -128 ->
  current_pos (cur (motion_handle rx (start m k)))
  = (current_pos m
     + Z.sgn (move_param rx)
       * rising_edges (pin_high STEP_PIN m) (Z.abs (move_param rx)))
    mod STEPS_PER_REV
  /\ pin_high DIRECTION_PIN (cur (motion_handle rx (start m k)))
     = (move_param rx >? 0)
  /\ pin_high STEP_PIN (cur (motion_handle rx (start m k)))
     = xorb (pin_high STEP_PIN m) (Z.odd (move_param rx))
  /\ steps_todo2 (cur (motion_handle rx (start m k))) = 0
  /\ busy_bit (cur (motion_handle rx (start m k))) = 0.
Proof. apply move_handle_motion. Qed.

(** X4. A MOVE by [n] followed by a MOVE by [-n] brings the motor back
    only when [n] is even; for an odd [n] it ends one position off,
    forward when the STEP pin was low at the start and backward when it
    was high. *)
Theorem move_there_and_back rx1 rx2 m k k' n :
  CMD_UNPACK rx1 = WIFI_CMD_MOVE ->
  CMD_UNPACK rx2 = WIFI_CMD_MOVE ->
  in_range m ->
  0 < n <= 127 ->
  move_param rx1 = n ->
  move_param rx2 = - n ->
  current_pos
    (cur (motion_handle rx2 (start (cur (motion_handle rx1 (start m k))) k')))
  = (current_pos m
     + (if Z.odd n then (if pin_high STEP_PIN m then -1 else 1) else 0))
    mod STEPS_PER_REV.
Proof.
  intros Hc1 Hc2 Hr Hn Hp1 Hp2.
  destruct (move_handle_motion rx1 m k Hc1 Hr ltac:(lia))
    as (P1 & _ & S1 & _).
  assert (Hr1 : in_range (cur (motion_handle rx1 (start m k)))).
  { unfold in_range. rewrite P1. apply Z.mod_pos_bound. reflexivity. }
  revert P1 S1 Hr1. generalize (cur (motion_handle rx1 (start m k))).
  intros m1 P1 S1 Hr1.
  destruct (move_handle_motion rx2 m1 k' Hc2 Hr1 ltac:(lia)) as (P2 & _).
  rewrite P2, S1, P1, Hp1, Hp2. clear P2 S1 P1.
  rewrite Z.sgn_pos, Z.sgn_neg, Z.abs_opp, Z.abs_eq by lia.
  unfold STEPS_PER_REV. rewrite Z.add_mod_idemp_l by lia. f_equal.
  unfold rising_edges.
  destruct (Z.odd n) eqn:Ho.
  - apply Z.odd_spec in Ho. destruct Ho as [q Hq]. subst n.
    destruct (pin_high STEP_PIN m); cbn [xorb negb];
      Z.div_mod_to_equations; lia.
  - assert (He : Z.even n = true) by (rewrite <- Z.negb_odd, Ho; reflexivity).
    apply Z.even_spec in He. destruct He as [q Hq]. subst n.
    destruct (pin_high STEP_PIN m); cbn [xorb negb];
      Z.div_mod_to_equations; lia.
Qed.

(** X3. A MOVE whose parameter byte is 0x80 moves nothing: [abs] of -128
    does not fit the [int8_t], the loop is not entered and only the
    direction pin is written. *)
Theorem move_minus_128_stays rx m k :
  CMD_UNPACK rx = WIFI_CMD_MOVE ->
  move_param rx = -128 ->
  current_pos (cur (motion_handle rx (start m k))) = current_pos m
  /\ pin_high STEP_PIN (cur (motion_handle rx (start m k)))
     = pin_high STEP_PIN m
  /\ pin_high DIRECTION_PIN (cur (motion_handle rx (start m k))) = CCW
  /\ steps_todo2 (cur (motion_handle rx (start m k))) = -128
  /\ busy_bit (cur (motion_handle rx (start m k))) = 0.
Proof.
  intros Hcmd Hp. rewrite (motion_handle_move rx _ Hcmd).
  unfold move_case, move_steps. cbv zeta. rewrite Hp.
  set (r3 := tick _ (tick _ (tick _ (tick (set_busy_bit 1) (start m k))))).
  assert (H3 : steps_todo2 (cur r3) = -128) by reflexivity.
  rewrite H3. change (Z.to_nat (-128)) with O. cbn [while_loop].
  unfold r3.
  destruct (setDirection_motion CCW (set_steps_todo2 (-128) (set_busy_bit 1 m)))
    as (Hd & Hs & _ & Hpos).
  repeat split; assumption || reflexivity.
Qed.

(** ** SCAN *)

Lemma rising_edges_full_turn b : rising_edges b STEPS_FULL_REV = STEPS_PER_REV.
Proof. destruct b; reflexivity. Qed.

(** A full revolution of toggles brings the position and the STEP pin back. *)
Lemma toggles_full_turn n m :
  Z.of_nat n = STEPS_FULL_REV ->
  in_range m ->
  pin_high DIRECTION_PIN m = CW ->
  current_pos (toggles n m) = current_pos m
  /\ pin_high STEP_PIN (toggles n m) = pin_high STEP_PIN m
  /\ pin_high DIRECTION_PIN (toggles n m) = CW
  /\ pin_high ENABLE_PIN (toggles n m) = pin_high ENABLE_PIN m.
Proof.
  intros Hn Hr Hd.
  destruct (toggles_motion n m Hr) as (_ & Hpos & Hstep & Hdir & Hen).
  rewrite Hpos, Hstep, Hdir, Hen, Hd, Hn, rising_edges_full_turn.
  rewrite nat_odd_Z, Hn. change (Z.odd STEPS_FULL_REV) with false.
  rewrite xorb_false_r. unfold CW, in_range, STEPS_PER_REV in *.
  repeat split; try reflexivity.
  replace (current_pos m + 1 * 200) with (current_pos m + 1 * 200) by lia.
  rewrite Z.mod_add, Z.mod_small; lia.
Qed.

Lemma scan_sweep_motion m k past0 :
  in_range m ->
  current_pos (cur (scan_sweep {| cur := m; adc_k := k; past := past0 |}))
  = current_pos m
  /\ pin_high STEP_PIN
       (cur (scan_sweep {| cur := m; adc_k := k; past := past0 |}))
     = pin_high STEP_PIN m
  /\ pin_high DIRECTION_PIN
       (cur (scan_sweep {| cur := m; adc_k := k; past := past0 |})) = CW
  /\ pin_high ENABLE_PIN
       (cur (scan_sweep {| cur := m; adc_k := k; past := past0 |})) = DRIVE_ON.
Proof.
  intros Hr. unfold scan_sweep. cbv zeta.
  set (r4 := tick (setDirection CW) _).
  assert (H1 : steps_todo (cur r4) = STEPS_FULL_REV) by reflexivity.
  assert (Hc : cur r4
               = setDirection CW
                   (enableDrive DRIVE_ON
                      (set_energy (energyArray m) 0
                         (set_steps_todo (s16 STEPS_FULL_REV) m))))
    by reflexivity.
  clearbody r4. rewrite H1.
  assert (Hn : Z.of_nat (Z.to_nat STEPS_FULL_REV) = STEPS_FULL_REV)
    by reflexivity.
  revert Hn. generalize (Z.to_nat STEPS_FULL_REV). intros n Hn.
  pose proof (sweep_loop_toggles n 0 r4) as Hloop.
  rewrite H1, Hn in Hloop.
  specialize (Hloop eq_refl ltac:(unfold STEPS_FULL_REV; lia)).
  revert Hloop. generalize (cur (snd (while_loop n sweep_cond sweep_body (0, r4)))).
  intros swept Hloop.
  rewrite !(same_motion_pin _ _ _ Hloop). destruct Hloop as [Hpos _].
  rewrite Hpos, Hc.
  set (m0 := set_energy (energyArray m) 0 (set_steps_todo (s16 STEPS_FULL_REV) m)).
  destruct (enableDrive_motion DRIVE_ON m0) as (Een & Es & _ & Ep).
  destruct (setDirection_motion CW (enableDrive DRIVE_ON m0))
    as (Dd & Ds & Den & Dp).
  destruct (toggles_full_turn n (setDirection CW (enableDrive DRIVE_ON m0)) Hn)
    as (Tp & Ts & Td & Ten).
  { unfold in_range. rewrite Dp, Ep. exact Hr. }
  { exact Dd. }
  rewrite Tp, Ts, Td, Ten, Dp, Ds, Den, Ep, Es, Een.
  repeat split; reflexivity.
Qed.


Lemma max_sample_index_range a : 0 <= max_sample_index a < ENERGY_SAMPLES.
Proof.
  unfold max_sample_index.
  destruct (max_energy_loop_spec a (Z.to_nat ENERGY_SAMPLES) 0 0)
    as (Hr & _); try (unfold ENERGY_SAMPLES; lia).
  exact Hr.
Qed.

(** X7. Whatever the buffer holds, [get_max_energy_pos] returns one of the
    ten offsets 0, 20, ..., 180: a position of the revolution. *)
Theorem max_energy_pos_range m :
  0 <= get_max_energy_pos m <= 180
  /\ get_max_energy_pos m mod (ADC_SAMPLE_PERIOD / 2) = 0
  /\ 0 <= get_max_energy_pos m < STEPS_PER_REV.
Proof.
  pose proof (max_sample_index_range (energyArray m)) as Hi.
  unfold get_max_energy_pos. change (ADC_SAMPLE_PERIOD / 2) with 20.
  unfold ENERGY_SAMPLES, STEPS_PER_REV in *.
  rewrite u8_small by lia. rewrite Z.mod_mul by lia. lia.
Qed.

Lemma scan_target_range k a : 0 <= scan_target k a <= 180.
Proof.
  pose proof (max_sample_index_range (samples_from k 10 ++ drop 10 a)) as Hi.
  unfold scan_target. change (ADC_SAMPLE_PERIOD / 2) with 20.
  unfold ENERGY_SAMPLES in *. rewrite u8_small by lia. lia.
Qed.

(** The seek of a SCAN from a state [sw] whose best offset is [d] away. *)
Lemma scan_seek_motion sw d :
  -32768 <= d < 32768 ->
  get_max_energy_pos (cur sw) - current_pos (cur sw) = d ->
  same_motion (cur (scan_seek sw))
              (toggles (Z.to_nat d) (setDirection (d >? 0) (cur sw))).
Proof.
  intros Hd Hdelta. unfold scan_seek. cbv zeta.
  set (r2 := tick _ (tick _ sw)).
  assert (H2 : steps_todo (cur r2) = d).
  { unfold r2. cbn [tick cur set_steps_todo steps_todo]. rewrite Hdelta.
    destruct (_ >? 0); cbn; apply s16_small; exact Hd. }
  assert (Hsame : same_motion (cur r2) (setDirection (d >? 0) (cur sw))).
  { unfold r2. cbn [tick cur set_steps_todo steps_todo]. rewrite Hdelta.
    rewrite s16_small by exact Hd. destruct (d >? 0); split; reflexivity. }
  clearbody r2. rewrite H2.
  destruct (Z.gtb_spec d 0) as [Hpos | Hneg].
  - destruct (seek_loop_toggles (Z.to_nat d) r2) as [Hloop _]; [lia | lia |].
    eapply same_motion_trans; [exact Hloop | apply toggles_same, Hsame].
  - replace (Z.to_nat d) with O by lia. cbn [while_loop toggles]. exact Hsame.
Qed.

Lemma seek_from_swept sw m d :
  in_range m ->
  current_pos (cur sw) = current_pos m ->
  pin_high STEP_PIN (cur sw) = pin_high STEP_PIN m ->
  pin_high ENABLE_PIN (cur sw) = DRIVE_ON ->
  -200 < d <= 180 ->
  get_max_energy_pos (cur sw) - current_pos m = d ->
  current_pos (next_command (set_busy_bit 0 (cur (scan_seek sw))))
  = (if d >? 0
     then (current_pos m + rising_edges (pin_high STEP_PIN m) d)
          mod STEPS_PER_REV
     else current_pos m)
  /\ pin_high DIRECTION_PIN (next_command (set_busy_bit 0 (cur (scan_seek sw))))
     = (d >? 0)
  /\ pin_high ENABLE_PIN (next_command (set_busy_bit 0 (cur (scan_seek sw))))
     = DRIVE_ON.
Proof.
  intros Hr Hp Hs Hen Hd Hdelta.
  pose proof (scan_seek_motion sw d ltac:(lia)) as Hseek.
  rewrite Hp in Hseek. specialize (Hseek Hdelta).
  destruct (setDirection_motion (d >? 0) (cur sw)) as (Dd & Ds & Den & Dp).
  destruct (toggles_motion (Z.to_nat d) (setDirection (d >? 0) (cur sw)))
    as (_ & Tp & _ & Td & Ten).
  { unfold in_range. rewrite Dp, Hp. exact Hr. }
  rewrite Dd, Ds, Dp, Hp, Hs in Tp. rewrite Dd in Td. rewrite Den, Hen in Ten.
  revert Hseek. generalize (cur (scan_seek sw)). intros b Hseek.
  change (current_pos (next_command (set_busy_bit 0 b))) with (current_pos b).
  change (pin_high DIRECTION_PIN (next_command (set_busy_bit 0 b)))
    with (pin_high DIRECTION_PIN b).
  change (pin_high ENABLE_PIN (next_command (set_busy_bit 0 b)))
    with (pin_high ENABLE_PIN b).
  rewrite !(same_motion_pin _ _ _ Hseek). destruct Hseek as [Hbp _].
  rewrite Hbp, Tp, Td, Ten.
  split; [| split; reflexivity].
  destruct (Z.gtb_spec d 0) as [Hpos | Hneg].
  - rewrite Z2Nat.id by lia. rewrite Z.mul_1_l. reflexivity.
  - replace (Z.to_nat d) with O by lia. unfold rising_edges.
    unfold in_range, STEPS_PER_REV in Hr.
    destruct (pin_high STEP_PIN m); cbn; rewrite ?Z.add_0_r;
      apply Z.mod_small; exact Hr.
Qed.

(** X6. Where a SCAN leaves the motor.  With [d] the distance from the
    position to the best offset: for a positive [d] the motor advances by
    half of [d] (rounded up when the STEP pin was low), since the seek
    makes [d] toggles and a toggle moves the motor only when it raises the
    pin; otherwise it stays. *)
Theorem scan_final_position rx m k d :
  CMD_UNPACK rx = WIFI_CMD_SCAN ->
  in_range m ->
  length (energyArray m) = 20%nat ->
  scan_target k (energyArray m) - current_pos m = d ->
  current_pos (cur (motion_handle rx (start m k)))
  = (if d >? 0
     then (current_pos m + rising_edges (pin_high STEP_PIN m) d)
          mod STEPS_PER_REV
     else current_pos m)
  /\ pin_high DIRECTION_PIN (cur (motion_handle rx (start m k))) = (d >? 0)
  /\ pin_high ENABLE_PIN (cur (motion_handle rx (start m k))) = DRIVE_ON.
Proof.
  intros Hcmd Hr HA Hd. rewrite (motion_handle_scan rx _ Hcmd).
  rewrite cur_tick. unfold scan_case. rewrite cur_tick.
  change (tick (set_busy_bit 1) (start m k))
    with {| cur := set_busy_bit 1 m; adc_k := k; past := [m] |}.
  destruct (scan_sweep_motion (set_busy_bit 1 m) k [m] Hr)
    as (Sp & Ss & _ & Sen).
  destruct (scan_sweep_samples (set_busy_bit 1 m) k [m] HA)
    as (_ & _ & Sarr & _).
  pose proof (scan_target_range k (energyArray m)) as Ht.
  apply seek_from_swept.
  - exact Hr.
  - exact Sp.
  - exact Ss.
  - exact Sen.
  - unfold in_range, STEPS_PER_REV in Hr. lia.
  - rewrite <- Hd. unfold get_max_energy_pos, scan_target.
    rewrite Sarr. reflexivity.
Qed.

(** ** The dispatcher, branch by branch *)

Lemma wireless_send_effect dst pkg w :
  motor (snd (wireless_send dst pkg w)) = motor w
  /\ motion_queue (snd (wireless_send dst pkg w)) = motion_queue w
  /\ adc_n (snd (wireless_send dst pkg w)) = adc_n w
  /\ tx_n (comm (snd (wireless_send dst pkg w))) = S (tx_n (comm w))
  /\ slave_boot_up (comm (snd (wireless_send dst pkg w)))
     = slave_boot_up (comm w)
  /\ outbox (comm (snd (wireless_send dst pkg w)))
     = if wireless_link (tx_n (comm w)) then outbox (comm w) ++ [(dst, pkg)]
       else outbox (comm w).
Proof. unfold wireless_send. cbn. repeat split; reflexivity. Qed.

Lemma CMD_UNPACK_move_word pkt :
  CMD_UNPACK (move_word pkt WIFI_CMD_MOVE) = WIFI_CMD_MOVE.
Proof.
  rewrite move_word_sum by (unfold WIFI_CMD_MOVE; lia).
  apply CMD_UNPACK_sum; try apply pkt_byte_range. unfold WIFI_CMD_MOVE. lia.
Qed.

(** X8. Decoding one packet has at most one effect outside the protocol
    variables: either the motion queue is left alone and at most one
    transmission is attempted, or exactly one word, a SCAN or a MOVE, is
    queued and nothing is transmitted.  The motor is never touched. *)
Theorem decoding_single_effect pkt w :
  motor (snd (wifi_pkt_decoding pkt w)) = motor w
  /\ ((motion_queue (snd (wifi_pkt_decoding pkt w)) = motion_queue w
       /\ (tx_n (comm (snd (wifi_pkt_decoding pkt w))) <= S (tx_n (comm w)))%nat
       /\ (length (outbox (comm (snd (wifi_pkt_decoding pkt w))))
           <= S (length (outbox (comm w))))%nat)
      \/ (comm (snd (wifi_pkt_decoding pkt w)) = comm w
          /\ adc_n (snd (wifi_pkt_decoding pkt w)) = adc_n w
          /\ exists rx,
               motion_queue (snd (wifi_pkt_decoding pkt w))
               = motion_queue w ++ [rx]
               /\ (CMD_UNPACK rx = WIFI_CMD_SCAN
                   \/ CMD_UNPACK rx = WIFI_CMD_MOVE))).
Proof.
  split; [apply decoding_motor |].
  assert (Hsend : forall dst pkg w0,
            motion_queue (snd (wireless_send dst pkg w0)) = motion_queue w0
            /\ (tx_n (comm (snd (wireless_send dst pkg w0)))
                <= S (tx_n (comm w0)))%nat
            /\ (length (outbox (comm (snd (wireless_send dst pkg w0))))
                <= S (length (outbox (comm w0))))%nat).
  { intros dst pkg w0.
    destruct (wireless_send_effect dst pkg w0) as (_ & Hq & _ & Ht & _ & Ho).
    rewrite Hq, Ht, Ho. split; [reflexivity |]. split; [lia |].
    destruct (wireless_link _); [rewrite length_app; cbn |]; lia. }
  assert (Hqueue : forall item w0,
            CMD_UNPACK item = WIFI_CMD_SCAN \/ CMD_UNPACK item = WIFI_CMD_MOVE ->
            (motion_queue (snd (xQueueSend item w0)) = motion_queue w0
             /\ (tx_n (comm (snd (xQueueSend item w0))) <= S (tx_n (comm w0)))%nat
             /\ (length (outbox (comm (snd (xQueueSend item w0))))
                 <= S (length (outbox (comm w0))))%nat)
            \/ (comm (snd (xQueueSend item w0)) = comm w0
                /\ adc_n (snd (xQueueSend item w0)) = adc_n w0
                /\ exists rx,
                     motion_queue (snd (xQueueSend item w0))
                     = motion_queue w0 ++ [rx]
                     /\ (CMD_UNPACK rx = WIFI_CMD_SCAN
                         \/ CMD_UNPACK rx = WIFI_CMD_MOVE))).
  { intros item w0 Hitem. unfold xQueueSend.
    destruct (_ <? _)%nat; cbn [snd comm adc_n motion_queue].
    - right. split; [reflexivity |]. split; [reflexivity |].
      exists item. split; [reflexivity | exact Hitem].
    - left. split; [reflexivity |]. split; lia. }
  assert (Hsame : forall w0 : World,
            motion_queue w0 = motion_queue w0
            /\ (tx_n (comm w0) <= S (tx_n (comm w0)))%nat
            /\ (length (outbox (comm w0)) <= S (length (outbox (comm w0))))%nat)
    by (intros; split; [reflexivity | split; lia]).
  unfold wifi_pkt_decoding.
  destruct (Z.eqb_spec (pkt_byte pkt 0) WIFI_CMD_REQPWR) as [_ | _].
  { destruct (negb _); cbn [snd]; left; [apply Hsame | apply Hsend]. }
  destruct (Z.eqb_spec (pkt_byte pkt 0) WIFI_CMD_GET_STATUS) as [_ | _].
  { destruct (_ =? _); cbn [snd]; left; [apply (Hsame (set_slave_boot_up true w)) |].
    unfold wifi_slave_heartbeat.
    match goal with
    | |- context [wireless_send ?d ?p ?w0] => apply (Hsend d p w0)
    end. }
  destruct (Z.eqb_spec (pkt_byte pkt 0) WIFI_CMD_GIVE_STATUS) as [_ | _].
  { destruct (negb _); cbn [snd]; [left; apply Hsame |].
    destruct (_ =? 0); cbn [snd]; left; [apply Hsame | apply Hsend]. }
  destruct (Z.eqb_spec (pkt_byte pkt 0) WIFI_CMD_CTL_DIR) as [_ | _];
    [left; apply Hsame |].
  destruct (Z.eqb_spec (pkt_byte pkt 0) WIFI_CMD_TERMINATE) as [_ | _];
    [left; apply Hsame |].
  destruct (Z.eqb_spec (pkt_byte pkt 0) WIFI_CMD_MOVE) as [Hm | _].
  { cbn [snd]. apply Hqueue. right. rewrite Hm. apply CMD_UNPACK_move_word. }
  destruct (Z.eqb_spec (pkt_byte pkt 0) WIFI_CMD_SCAN) as [Hs | _].
  { cbn [snd]. apply Hqueue. left. rewrite Hs. reflexivity. }
  left. apply Hsame.
Qed.

(** X9. A packet is dropped without any trace in the node state, and with
    result code 0, when its command is CTL_DIR or TERMINATE, when its
    command byte is above MOVE, and when a slave receives REQPWR or
    GIVE_STATUS. *)
Theorem decoding_ignores pkt w :
  pkt_byte pkt 0 = WIFI_CMD_CTL_DIR
  \/ pkt_byte pkt 0 = WIFI_CMD_TERMINATE
  \/ WIFI_CMD_MOVE < pkt_byte pkt 0
  \/ (mesh_get_node_address <> WIFI_MASTER_ADDR
      /\ (pkt_byte pkt 0 = WIFI_CMD_REQPWR
          \/ pkt_byte pkt 0 = WIFI_CMD_GIVE_STATUS)) ->
  wifi_pkt_decoding pkt w = (0, w).
Proof.
  intros H. unfold wifi_pkt_decoding.
  destruct H as [H | [H | [H | [Ha [H | H]]]]];
    try (rewrite H; cbn;
         try (destruct (Z.eqb_spec mesh_get_node_address WIFI_MASTER_ADDR);
              [contradiction | reflexivity]);
         reflexivity).
  unfold WIFI_CMD_MOVE in H.
  repeat match goal with
         | |- context [pkt_byte pkt 0 =? ?c] =>
             destruct (Z.eqb_spec (pkt_byte pkt 0) c) as [E | _];
             [exfalso; revert E; unfold c; lia |]
         end.
  reflexivity.
Qed.

Lemma decoding_queue_bound pkt w :
  (length (motion_queue w) <= MOTION_QUEUE_LENGTH)%nat ->
  (length (motion_queue (snd (wifi_pkt_decoding pkt w)))
   <= MOTION_QUEUE_LENGTH)%nat.
Proof.
  intros Hle.
  assert (Hq : forall item,
            (length (motion_queue (snd (xQueueSend item w)))
             <= MOTION_QUEUE_LENGTH)%nat).
  { intros item. unfold xQueueSend.
    destruct (Nat.ltb_spec (length (motion_queue w)) MOTION_QUEUE_LENGTH);
      cbn [snd motion_queue]; [rewrite length_app; cbn; lia | exact Hle]. }
  unfold wifi_pkt_decoding, wifi_slave_heartbeat.
  repeat match goal with
         | |- context [if ?c then _ else _] =>
             lazymatch c with
             | context [xQueueSend] => fail
             | _ => destruct c
             end
         end; cbn [snd]; try apply Hq; try exact Hle.
Qed.

(** X10. The motion queue never holds more than ten words. *)
Theorem motion_queue_bounded w :
  reachable w -> (length (motion_queue w) <= MOTION_QUEUE_LENGTH)%nat.
Proof.
  induction 1 as [| w _ IH | pkt w _ IH | w _ IH].
  - cbn. unfold MOTION_QUEUE_LENGTH. lia.
  - unfold wifi_slave_request. destruct (_ && _); [| exact IH].
    destruct (wireless_send_effect WIFI_MASTER_ADDR [u8 WIFI_CMD_REQPWR] w)
      as (_ & Hq & _). rewrite Hq. exact IH.
  - apply decoding_queue_bound, IH.
  - unfold motion_task. destruct (motion_queue w) as [| rx q] eqn:E;
      [rewrite E; exact IH |].
    cbn [motion_queue]. cbn [length] in IH. lia.
Qed.

(** X11. When the motion queue is full, a SCAN or MOVE packet is lost: the
    decoding returns 0 and the node state is unchanged. *)
Theorem decoding_full_queue_drops pkt w :
  length (motion_queue w) = MOTION_QUEUE_LENGTH ->
  pkt_byte pkt 0 = WIFI_CMD_SCAN \/ pkt_byte pkt 0 = WIFI_CMD_MOVE ->
  wifi_pkt_decoding pkt w = (0, w).
Proof.
  intros Hfull Hcmd. unfold wifi_pkt_decoding, xQueueSend.
  rewrite Hfull, Nat.ltb_irrefl.
  destruct Hcmd as [H | H]; rewrite H; reflexivity.
Qed.

Lemma decoding_boot_up pkt w :
  slave_boot_up (comm (snd (wifi_pkt_decoding pkt w)))
  = slave_boot_up (comm w) || (pkt_byte pkt 0 =? WIFI_CMD_GET_STATUS).
Proof.
  unfold wifi_pkt_decoding, wifi_slave_heartbeat, wireless_send, xQueueSend,
    set_slave_boot_up.
  destruct (Z.eqb_spec (pkt_byte pkt 0) WIFI_CMD_GET_STATUS) as [E | E].
  - rewrite E. cbn. rewrite orb_true_r.
    destruct (_ =? _); reflexivity.
  - rewrite orb_false_r.
    repeat match goal with
           | |- context [if ?c then _ else _] => destruct c
           end; reflexivity.
Qed.

(** X12. The boot acknowledgement is a latch: a GET_STATUS sets it on any
    node, nothing clears it, and once it is set (or on the master) the
    request task transmits nothing. *)
Theorem boot_acknowledged_latches pkt w :
  (pkt_byte pkt 0 = WIFI_CMD_GET_STATUS ->
   slave_boot_up (comm (snd (wifi_pkt_decoding pkt w))) = true)
  /\ (slave_boot_up (comm w) = true ->
      slave_boot_up (comm (snd (wifi_pkt_decoding pkt w))) = true
      /\ slave_boot_up (comm (motion_task w)) = true
      /\ wifi_slave_request w = w)
  /\ (mesh_get_node_address = WIFI_MASTER_ADDR -> wifi_slave_request w = w).
Proof.
  split; [| split].
  - intros E. rewrite decoding_boot_up, E. apply orb_true_r.
  - intros Hb. split; [rewrite decoding_boot_up, Hb; reflexivity |]. split.
    + unfold motion_task. destruct (motion_queue w); exact Hb.
    + unfold wifi_slave_request. rewrite Hb. reflexivity.
  - intros Ha. unfold wifi_slave_request. rewrite Ha.
    rewrite andb_false_r. reflexivity.
Qed.

Lemma heartbeat_outbox w :
  wireless_link (tx_n (comm w)) = true ->
  exists low,
    0 <= low <= 32
    /\ outbox (comm (wifi_slave_heartbeat w))
       = outbox (comm w)
         ++ [(WIFI_MASTER_ADDR,
              [WIFI_CMD_GIVE_STATUS; u8 (busy (comm w)); 0; low;
               u8 (position (comm w))])].
Proof.
  intros Hl. rewrite (status_report_bytes w Hl).
  destruct (heartbeat_reading_wraps (adc_n w)) as [_ Hb].
  set (a := heartbeat_reading (adc_n w)) in *.
  exists a. split; [exact Hb |].
  assert (Hu : u8 (u8 (busy (comm w))) = u8 (busy (comm w)))
    by (unfold u8, wrap; apply Z.mod_mod; lia).
  assert (Hhi : u8 (Z.land (Z.shiftr a 8) 15) = 0).
  { rewrite Z.shiftr_div_pow2 by lia. change (2 ^ 8) with 256.
    rewrite Z.div_small by lia. reflexivity. }
  assert (Hlo : u8 (Z.land a 255) = a).
  { rewrite land_255, Z.mod_small by lia. apply u8_small. lia. }
  rewrite Hu, Hhi, Hlo. reflexivity.
Qed.

(** X13. Every Status Report is five bytes to the master: GIVE_STATUS, the
    byte [busy], an ADC-upper byte that is always 0, an ADC-lower byte of
    at most 32, and the byte [position].  Assembling it takes 2000
    conversions and one transmission whether or not the report goes out,
    and touches neither the motor nor the motion queue. *)
Theorem status_report_shape w :
  adc_n (wifi_slave_heartbeat w) = adc_n w + ADC_AVERAGE_DEPTH
  /\ tx_n (comm (wifi_slave_heartbeat w)) = S (tx_n (comm w))
  /\ motor (wifi_slave_heartbeat w) = motor w
  /\ motion_queue (wifi_slave_heartbeat w) = motion_queue w
  /\ (wireless_link (tx_n (comm w)) = false ->
      outbox (comm (wifi_slave_heartbeat w)) = outbox (comm w))
  /\ (wireless_link (tx_n (comm w)) = true ->
      exists low,
        0 <= low <= 32
        /\ outbox (comm (wifi_slave_heartbeat w))
           = outbox (comm w)
             ++ [(WIFI_MASTER_ADDR,
                  [WIFI_CMD_GIVE_STATUS; u8 (busy (comm w)); 0; low;
                   u8 (position (comm w))])]).
Proof.
  split; [reflexivity |]. split; [reflexivity |]. split; [reflexivity |].
  split; [reflexivity |]. split.
  - intros Hl. unfold wifi_slave_heartbeat, wireless_send. cbn.
    rewrite Hl. reflexivity.
  - apply heartbeat_outbox.
Qed.

Lemma adc_sum_bounds n :
  forall k,
    (forall j, 0 <= adc0_get_reading j < 4096) ->
    0 <= adc_sum n k <= 4095 * Z.of_nat n.
Proof.
  induction n as [| n IH]; intros k Hbits; cbn [adc_sum]; [lia |].
  pose proof (Hbits k). pose proof (IH (k + 1) Hbits). lia.
Qed.

Lemma adc_sum_steady n :
  forall k v,
    (forall j, k <= j < k + Z.of_nat n -> adc0_get_reading j = v) ->
    adc_sum n k = v * Z.of_nat n.
Proof.
  induction n as [| n IH]; intros k v Hv; cbn [adc_sum]; [lia |].
  rewrite (Hv k) by lia. rewrite (IH (k + 1) v) by (intros; apply Hv; lia).
  lia.
Qed.

(** X14. With 12-bit conversions a scan sample is the integer mean of its
    2000 conversions, it is a 12-bit value itself, and a steady input reads
    back unchanged. *)
Theorem scan_reading_is_mean k :
  (forall j, 0 <= adc0_get_reading j < 4096) ->
  scan_reading k = adc_sum (Z.to_nat ADC_AVERAGE_DEPTH) k / ADC_AVERAGE_DEPTH
  /\ 0 <= scan_reading k < 4096
  /\ (forall v,
        (forall j, k <= j < k + ADC_AVERAGE_DEPTH -> adc0_get_reading j = v) ->
        scan_reading k = v).
Proof.
  intros Hbits. rewrite (scan_reading_mean k Hbits).
  pose proof (adc_sum_bounds (Z.to_nat ADC_AVERAGE_DEPTH) k Hbits) as Hs.
  split; [reflexivity |]. split.
  - revert Hs. generalize (adc_sum (Z.to_nat ADC_AVERAGE_DEPTH) k).
    unfold ADC_AVERAGE_DEPTH. intros s Hs.
    change (Z.of_nat (Z.to_nat 2000)) with 2000 in Hs.
    clear - Hs. Z.div_mod_to_equations. lia.
  - intros v Hv.
    rewrite (adc_sum_steady (Z.to_nat ADC_AVERAGE_DEPTH) k v).
    + change (Z.of_nat (Z.to_nat ADC_AVERAGE_DEPTH)) with ADC_AVERAGE_DEPTH.
      apply Z.div_mul. unfold ADC_AVERAGE_DEPTH. lia.
    + change (Z.of_nat (Z.to_nat ADC_AVERAGE_DEPTH)) with ADC_AVERAGE_DEPTH.
      exact Hv.
Qed.

Lemma PARAM2_UNPACK_sum c a b :
  0 <= c < 256 -> 0 <= a < 256 -> 0 <= b < 256 ->
  PARAM2_UNPACK (c * 16777216 + a * 65536 + b * 256) = b.
Proof.
  intros Hc Ha Hb. unfold PARAM2_UNPACK.
  rewrite land_255, Z.shiftr_div_pow2 by lia.
  change (2 ^ 8) with 256.
  replace (c * 16777216 + a * 65536 + b * 256)
    with ((c * 65536 + a * 256 + b) * 256) by lia.
  rewrite Z.div_mul by lia.
  replace (c * 65536 + a * 256 + b) with (b + (c * 256 + a) * 256) by lia.
  rewrite Z.mod_add by lia. apply Z.mod_small. lia.
Qed.

Lemma PARAM3_UNPACK_sum c a b :
  PARAM3_UNPACK (c * 16777216 + a * 65536 + b * 256) = 0.
Proof.
  unfold PARAM3_UNPACK. rewrite land_255, Z.shiftr_0_r.
  replace (c * 16777216 + a * 65536 + b * 256)
    with (0 + (c * 65536 + a * 256 + b) * 256) by lia.
  rewrite Z.mod_add by lia. reflexivity.
Qed.

(** X15. The word packed from a packet unpacks to what was packed: the
    command byte, the two parameter bytes of the buffer, and a third
    parameter that is always 0; the word fits 32 bits. *)
Theorem motion_word_fields pkt cmd :
  0 <= cmd < 256 ->
  CMD_UNPACK (move_word pkt cmd) = cmd
  /\ PARAM1_UNPACK (move_word pkt cmd) = pkt_byte pkt WIFI_MOVE_IDX_PARAM1
  /\ PARAM2_UNPACK (move_word pkt cmd) = pkt_byte pkt WIFI_MOVE_IDX_PARAM2
  /\ PARAM3_UNPACK (move_word pkt cmd) = 0
  /\ 0 <= move_word pkt cmd < 4294967296.
Proof.
  intros Hc. rewrite move_word_sum by exact Hc.
  pose proof (pkt_byte_range pkt WIFI_MOVE_IDX_PARAM1) as H1.
  pose proof (pkt_byte_range pkt WIFI_MOVE_IDX_PARAM2) as H2.
  split; [apply CMD_UNPACK_sum; assumption |].
  split; [apply PARAM1_UNPACK_sum; assumption |].
  split; [apply PARAM2_UNPACK_sum; assumption |].
  split; [apply PARAM3_UNPACK_sum |]. lia.
Qed.

(** ** The packet hand-off *)

Lemma receive_all ps :
  forall n,
    (length (comm_queue n) + length ps <= COMM_QUEUE_LENGTH)%nat ->
    fold_left (fun n0 p => wifi_receive_task (Some p) n0) ps n
    = {| world := world n; comm_queue := comm_queue n ++ ps |}.
Proof.
  induction ps as [| p ps IH]; intros n Hle; cbn [fold_left].
  - rewrite app_nil_r. destruct n; reflexivity.
  - cbn [length] in Hle. unfold wifi_receive_task at 2.
    destruct (Nat.ltb_spec (length (comm_queue n)) COMM_QUEUE_LENGTH); [| lia].
    rewrite IH by (cbn [comm_queue]; rewrite length_app; cbn; lia).
    cbn [world comm_queue]. rewrite <- app_assoc. reflexivity.
Qed.

Lemma drain_all ps :
  forall n,
    comm_queue n = ps ->
    turns (length ps) mid_comm_task n
    = {| world := fold_left (fun w p => snd (wifi_pkt_decoding p w)) ps (world n);
         comm_queue := [] |}.
Proof.
  induction ps as [| p ps IH]; intros n Hq; cbn [length turns fold_left].
  - destruct n as [w q]. cbn in Hq. subst q. reflexivity.
  - unfold mid_comm_task at 2. rewrite Hq. rewrite IH by reflexivity.
    reflexivity.
Qed.

(** X16. Up to ten packets received while the decoding task is not running
    are all kept and, once it runs, decoded one per turn in the order of
    their arrival. *)
Theorem packets_decoded_in_order ps w :
  (length ps <= COMM_QUEUE_LENGTH)%nat ->
  turns (length ps) mid_comm_task
        (fold_left (fun n p => wifi_receive_task (Some p) n) ps
                   {| world := w; comm_queue := [] |})
  = {| world := fold_left (fun w0 p => snd (wifi_pkt_decoding p w0)) ps w;
       comm_queue := [] |}.
Proof.
  intros Hle. rewrite receive_all by (cbn; lia). cbn [world comm_queue app].
  apply drain_all. reflexivity.
Qed.

(** X17. The hand-off queue never grows past ten packets: a packet that
    arrives while it is full is lost and nothing else changes; reception
    never touches the node state, and a turn of the decoding task on an
    empty queue does nothing. *)
Theorem comm_queue_bounded rx n :
  (length (comm_queue n) <= COMM_QUEUE_LENGTH)%nat ->
  (length (comm_queue (wifi_receive_task rx n)) <= COMM_QUEUE_LENGTH)%nat
  /\ world (wifi_receive_task rx n) = world n
  /\ (length (comm_queue n) = COMM_QUEUE_LENGTH -> wifi_receive_task rx n = n)
  /\ (length (comm_queue (mid_comm_task n)) <= length (comm_queue n))%nat
  /\ (comm_queue n = [] -> mid_comm_task n = n).
Proof.
  intros Hle. unfold wifi_receive_task, mid_comm_task.
  split; [| split; [| split; [| split]]].
  - destruct rx as [p |]; [| exact Hle].
    destruct (Nat.ltb_spec (length (comm_queue n)) COMM_QUEUE_LENGTH);
      [cbn; rewrite length_app; cbn; lia | exact Hle].
  - destruct rx as [p |]; [| reflexivity].
    destruct (_ <? _)%nat; reflexivity.
  - intros Hfull. destruct rx as [p |]; [| reflexivity].
    rewrite Hfull, Nat.ltb_irrefl. reflexivity.
  - destruct (comm_queue n) eqn:E; cbn; rewrite ?E; cbn; lia.
  - intros He. rewrite He. reflexivity.
Qed.

(** ** Replies *)

Lemma decoding_REQPWR_master pkt w :
  mesh_get_node_address = WIFI_MASTER_ADDR ->
  pkt_byte pkt 0 = WIFI_CMD_REQPWR ->
  wifi_pkt_decoding pkt w
  = (0, snd (wireless_send (nwk_src pkt) [WIFI_CMD_GET_STATUS] w)).
Proof.
  intros Ha Hc. unfold wifi_pkt_decoding. rewrite Hc, Ha. reflexivity.
Qed.

Lemma decoding_GET_STATUS_slave pkt w :
  mesh_get_node_address <> WIFI_MASTER_ADDR ->
  pkt_byte pkt 0 = WIFI_CMD_GET_STATUS ->
  wifi_pkt_decoding pkt w
  = (0, wifi_slave_heartbeat (set_slave_boot_up true w)).
Proof.
  intros Ha Hc. unfold wifi_pkt_decoding. rewrite Hc.
  destruct (Z.eqb_spec mesh_get_node_address WIFI_MASTER_ADDR);
    [contradiction | reflexivity].
Qed.

Lemma decoding_GIVE_STATUS_master pkt w :
  mesh_get_node_address = WIFI_MASTER_ADDR ->
  pkt_byte pkt 0 = WIFI_CMD_GIVE_STATUS ->
  u8 (info_data_len pkt) <> 0 ->
  wifi_pkt_decoding pkt w
  = (0, snd (wireless_send (nwk_src pkt) [WIFI_CMD_SCAN] w)).
Proof.
  intros Ha Hc Hl. unfold wifi_pkt_decoding. rewrite Hc, Ha.
  destruct (Z.eqb_spec (u8 (info_data_len pkt)) 0);
    [contradiction | reflexivity].
Qed.

Lemma decoding_SCAN pkt w :
  pkt_byte pkt 0 = WIFI_CMD_SCAN ->
  wifi_pkt_decoding pkt w
  = (0, snd (xQueueSend (WIFI_CMD_SCAN * 16777216) w)).
Proof. intros Hc. unfold wifi_pkt_decoding. rewrite Hc. reflexivity. Qed.

(** X18. On the master with the link up, a REQPWR is answered with
    GET_STATUS and a GIVE_STATUS of non-zero length with SCAN, each as one
    packet of one byte to the sender; with the link down the same packets
    are decoded with result 0 and nothing goes out. *)
Theorem master_replies pkt w :
  mesh_get_node_address = WIFI_MASTER_ADDR ->
  (pkt_byte pkt 0 = WIFI_CMD_REQPWR
   \/ (pkt_byte pkt 0 = WIFI_CMD_GIVE_STATUS /\ u8 (info_data_len pkt) <> 0)) ->
  fst (wifi_pkt_decoding pkt w) = 0
  /\ motion_queue (snd (wifi_pkt_decoding pkt w)) = motion_queue w
  /\ outbox (comm (snd (wifi_pkt_decoding pkt w)))
     = if wireless_link (tx_n (comm w))
       then outbox (comm w)
            ++ [(nwk_src pkt,
                 [if pkt_byte pkt 0 =? WIFI_CMD_REQPWR
                  then WIFI_CMD_GET_STATUS else WIFI_CMD_SCAN])]
       else outbox (comm w).
Proof.
  intros Ha [Hc | [Hc Hl]].
  - rewrite (decoding_REQPWR_master pkt w Ha Hc), Hc. cbn [fst snd].
    destruct (wireless_send_effect (nwk_src pkt) [WIFI_CMD_GET_STATUS] w)
      as (_ & Hq & _ & _ & _ & Ho).
    rewrite Hq, Ho. auto.
  - rewrite (decoding_GIVE_STATUS_master pkt w Ha Hc Hl), Hc. cbn [fst snd].
    destruct (wireless_send_effect (nwk_src pkt) [WIFI_CMD_SCAN] w)
      as (_ & Hq & _ & _ & _ & Ho).
    rewrite Hq, Ho. auto.
Qed.

(** What a slave does with GET_STATUS, in terms of the report of
    [wifi_slave_heartbeat]. *)
Lemma slave_answers_get_status pkt w :
  mesh_get_node_address <> WIFI_MASTER_ADDR ->
  pkt_byte pkt 0 = WIFI_CMD_GET_STATUS ->
  wireless_link (tx_n (comm w)) = true ->
  exists low,
    0 <= low <= 32
    /\ fst (wifi_pkt_decoding pkt w) = 0
    /\ slave_boot_up (comm (snd (wifi_pkt_decoding pkt w))) = true
    /\ motion_queue (snd (wifi_pkt_decoding pkt w)) = motion_queue w
    /\ outbox (comm (snd (wifi_pkt_decoding pkt w)))
       = outbox (comm w)
         ++ [(WIFI_MASTER_ADDR,
              [WIFI_CMD_GIVE_STATUS; u8 (busy (comm w)); 0; low;
               u8 (position (comm w))])].
Proof.
  intros Ha Hc Hl.
  pose proof (decoding_boot_up pkt w) as Hb. rewrite Hc in Hb.
  change (WIFI_CMD_GET_STATUS =? WIFI_CMD_GET_STATUS) with true in Hb.
  rewrite orb_true_r in Hb. revert Hb.
  rewrite (decoding_GET_STATUS_slave pkt w Ha Hc). cbn [fst snd]. intros Hb.
  assert (Hq : motion_queue (wifi_slave_heartbeat (set_slave_boot_up true w))
               = motion_queue w) by reflexivity.
  destruct (heartbeat_outbox (set_slave_boot_up true w) Hl)
    as (low & Hlow & Ho).
  exists low. split; [exact Hlow |]. split; [reflexivity |].
  split; [exact Hb |]. split; [exact Hq |]. exact Ho.
Qed.

(** ** The pin configuration *)

Lemma testbit_u32 x i : 0 <= i < 32 -> Z.testbit (u32 x) i = Z.testbit x i.
Proof. intros H. unfold u32, wrap. apply Z.mod_pow2_bits_low. lia. Qed.

Lemma bit_index_cases i :
  0 <= i < 32 -> In i (map Z.of_nat (seq 0 32)).
Proof.
  intros H. rewrite <- (Z2Nat.id i) by lia.
  apply in_map, in_seq. lia.
Qed.

(** X20. Which bits [power_wifi_init] writes: PINSEL1 bits 21:20 become 01
    (the ADC function of the pin), the low byte of PINSEL4 is cleared, bits
    0, 1 and 3 of the port direction are set, bits 0 to 5 of PINMODE4 are
    set, and PINMODE_OD2 becomes 11.  Every other bit keeps its value, bits
    6 and 7 of PINMODE4 among them. *)
Theorem power_wifi_init_pin_bits c i :
  0 <= i < 32 ->
  Z.testbit (PINSEL1 (power_wifi_init_pins c)) i
  = (if i =? 20 then true
     else if i =? 21 then false else Z.testbit (PINSEL1 c) i)
  /\ Z.testbit (PINSEL4 (power_wifi_init_pins c)) i
     = (8 <=? i) && Z.testbit (PINSEL4 c) i
  /\ Z.testbit (FIODIR2 (power_wifi_init_pins c)) i
     = (i =? 0) || (i =? 1) || (i =? 3) || Z.testbit (FIODIR2 c) i
  /\ Z.testbit (PINMODE4 (power_wifi_init_pins c)) i
     = (i <? 6) || Z.testbit (PINMODE4 c) i
  /\ PINMODE_OD2 (power_wifi_init_pins c) = 11.
Proof.
  intros Hi. unfold power_wifi_init_pins.
  cbn [PINSEL1 PINSEL4 FIODIR2 PINMODE4 PINMODE_OD2].
  rewrite !testbit_u32, !Z.lor_spec, !Z.land_spec by exact Hi.
  rewrite testbit_u32, !Z.land_spec, !Z.lnot_spec by lia.
  pose proof (bit_index_cases i Hi) as Hcases. clear Hi.
  cbn [seq map] in Hcases.
  repeat (destruct Hcases as [<- | Hcases];
          [cbn;
           repeat match goal with
                  | |- context [Z.testbit (?f c) ?k] =>
                      destruct (Z.testbit (f c) k)
                  end;
           repeat split; reflexivity |]).
  destruct Hcases.
Qed.


End Firmware.

(** * The properties on concrete runs *)

Local Abbreviation slave_decoding :=
  (wifi_pkt_decoding (adc_constant 1000) slave_addr link_up).
Local Abbreviation slave_motion := (motion_task (adc_constant 1000)).
(** C1. A slave that has moved to position 50 answers GET_STATUS with a
    report whose position byte is 0, and whose ADC bytes hold 16 where every
    conversion returned 1000 (upper nibble 3, lower byte 232); a slave asked
    in the middle of a MOVE, with [busy_bit] at 1, sends an error byte of 0. *)
Theorem status_report_misses_motor_state :
  let w1 := slave_motion (snd (slave_decoding (pkt_move 100) world_init)) in
  let w2 := snd (slave_decoding pkt_get_status w1) in
  let moving :=
    nth 10 (trace (motion_handle (adc_constant 1000)
                     (WIFI_CMD_MOVE * 16777216 + 100 * 65536)
                     (start motor_init 0)))
        motor_init in
  let asked :=
    snd (slave_decoding pkt_get_status
           {| comm := comm_init; motor := moving; motion_queue := [];
              adc_n := 0 |}) in
  (current_pos (motor w1) = 50
   /\ outbox (comm w2) =
        [(WIFI_MASTER_ADDR, [WIFI_CMD_GIVE_STATUS; 0; 0; 16; 0])])
  /\ (busy_bit moving = 1
      /\ outbox (comm asked) =
           [(WIFI_MASTER_ADDR, [WIFI_CMD_GIVE_STATUS; 0; 0; 16; 0])]).
Proof. vm_compute. repeat split. Qed.

(** C4. A slave at position 50 scans under an input whose best sample is
    the third one: the best-energy offset is 40, the delta is -10, the
    direction pin is set to counter-clockwise, no step is issued and the
    scan ends at position 50. *)
Theorem scan_negative_delta_stays :
  let w1 := slave_motion (snd (slave_decoding (pkt_move 100) world_init)) in
  let w2 := motion_task adc_peak
              (snd (wifi_pkt_decoding adc_peak slave_addr link_up
                      pkt_scan w1)) in
  current_pos (motor w1) = 50
  /\ get_max_energy_pos (motor w2) = 40
  /\ steps_todo (motor w2) = -10
  /\ pin_high DIRECTION_PIN (motor w2) = false
  /\ current_pos (motor w2) = 50.
Proof. vm_compute. repeat split. Qed.

(** C3, as stated, fails: on the master a REQPWR is decoded while the link
    is down; the reply is not sent and the result code is zero. *)
Lemma send_failure_returns_zero :
  let out := wifi_pkt_decoding (adc_constant 1000) WIFI_MASTER_ADDR link_down
               pkt_reqpwr world_init in
  send_failed link_down world_init (snd out) = true
  /\ outbox (comm (snd out)) = []
  /\ fst out = 0.
Proof. vm_compute. repeat split. Qed.

Lemma move_packet_round_trip_witness :
  exists rx,
    motion_queue (snd (slave_decoding (pkt_move 251) world_init))
      = motion_queue world_init ++ [rx]
    /\ CMD_UNPACK rx = WIFI_CMD_MOVE
    /\ move_param rx = -5.
Proof.
  apply (move_packet_round_trip (adc_constant 1000) slave_addr link_up
           (pkt_move 251) world_init (-5));
    [right; reflexivity | reflexivity | reflexivity
    | unfold MOTION_QUEUE_LENGTH; cbn; lia].
Defined.

Lemma decoding_result_code_witness :
  fst (wifi_pkt_decoding (adc_constant 1000) WIFI_MASTER_ADDR link_up
         pkt_give_status_empty world_init) <> 0.
Proof.
  apply (proj1 (decoding_result_code (adc_constant 1000) WIFI_MASTER_ADDR
                  link_up pkt_give_status_empty world_init)).
  repeat split.
Defined.

Lemma max_energy_pos_first_argmax_witness :
  exists i,
    first_argmax
      (take (Z.to_nat ENERGY_SAMPLES)
         (energyArray
            (motor_with_samples [3; 9; 9; 1; 0; 0; 0; 0; 0; 0;
                                 0; 0; 0; 0; 0; 0; 0; 0; 0; 0]))) i
    /\ get_max_energy_pos
         (motor_with_samples [3; 9; 9; 1; 0; 0; 0; 0; 0; 0;
                              0; 0; 0; 0; 0; 0; 0; 0; 0; 0])
       = (ADC_SAMPLE_PERIOD / 2) * Z.of_nat i.
Proof.
  apply (max_energy_pos_first_argmax
           (motor_with_samples [3; 9; 9; 1; 0; 0; 0; 0; 0; 0;
                                0; 0; 0; 0; 0; 0; 0; 0; 0; 0])).
  vm_compute. lia.
Defined.

Lemma position_always_in_range_witness :
  current_pos (toggleStep motor_at_end) = 0
  /\ current_pos (toggleStep motor_init) = STEPS_PER_REV - 1
  /\ in_range (toggleStep motor_at_end)
  /\ in_range (motor (slave_motion
                        (snd (slave_decoding (pkt_move 100) world_init)))).
Proof.
  destruct (position_always_in_range (adc_constant 1000) slave_addr link_up)
    as (Hforward & Hbackward & Hstep & Hreach).
  split; [apply Hforward; reflexivity |].
  split; [apply Hbackward; reflexivity |].
  split; [apply Hstep; unfold in_range, motor_at_end, STEPS_PER_REV; cbn; lia |].
  apply Hreach. apply reach_motion, reach_decode, reach_init.
Defined.

Lemma give_status_empty_is_error_witness :
  fst (wifi_pkt_decoding (adc_constant 1000) WIFI_MASTER_ADDR link_up
         pkt_give_status_empty world_init) <> 0
  /\ snd (wifi_pkt_decoding (adc_constant 1000) WIFI_MASTER_ADDR link_up
            pkt_give_status_empty world_init) = world_init.
Proof.
  apply (give_status_empty_is_error (adc_constant 1000) WIFI_MASTER_ADDR
           link_up pkt_give_status_empty world_init); reflexivity.
Defined.

Lemma busy_during_command_witness :
  is_idle (motor (snd (slave_decoding (pkt_move 100) world_init)))
  /\ (exists during after,
        trace (motion_handle (adc_constant 1000)
                 (WIFI_CMD_MOVE * 16777216 + 100 * 65536)
                 (start (motor (snd (slave_decoding (pkt_move 100) world_init)))
                        (adc_n (snd (slave_decoding (pkt_move 100) world_init)))))
          = motor (snd (slave_decoding (pkt_move 100) world_init))
            :: during ++ after
        /\ motor (snd (slave_decoding (pkt_move 100) world_init)) :: during
           = trace (if CMD_UNPACK (WIFI_CMD_MOVE * 16777216 + 100 * 65536)
                       =? WIFI_CMD_SCAN
                    then scan_seek (scan_sweep (adc_constant 1000)
                           (tick (set_busy_bit 1)
                              (start (motor (snd (slave_decoding (pkt_move 100) world_init)))
                                     (adc_n (snd (slave_decoding (pkt_move 100) world_init))))))
                    else move_steps (WIFI_CMD_MOVE * 16777216 + 100 * 65536)
                           (tick (set_busy_bit 1)
                              (start (motor (snd (slave_decoding (pkt_move 100) world_init)))
                                     (adc_n (snd (slave_decoding (pkt_move 100) world_init))))))
        /\ (exists done,
              last during = Some done
              /\ after = [set_busy_bit 0 done;
                          next_command (set_busy_bit 0 done)]
              /\ motor (slave_motion
                          (snd (slave_decoding (pkt_move 100) world_init)))
                 = next_command (set_busy_bit 0 done))
        /\ during <> [] /\ after <> []
        /\ Forall is_busy during /\ Forall is_idle after)
  /\ is_idle (motor (slave_motion
                       (snd (slave_decoding (pkt_move 100) world_init)))).
Proof.
  apply (busy_during_command (adc_constant 1000) slave_addr link_up
           (snd (slave_decoding (pkt_move 100) world_init))
           (WIFI_CMD_MOVE * 16777216 + 100 * 65536) []);
    [apply reach_decode, reach_init | reflexivity | right; reflexivity].
Defined.

Lemma scan_overwrites_energy_buffer_witness :
  energyArray_idx
    (cur (motion_handle adc_peak (WIFI_CMD_SCAN * 16777216)
            (start motor_init 0))) = ENERGY_SAMPLES
  /\ energyArray
       (cur (motion_handle adc_peak (WIFI_CMD_SCAN * 16777216)
               (start motor_init 0)))
     = samples_from adc_peak 0 (Z.to_nat ENERGY_SAMPLES)
       ++ drop (Z.to_nat ENERGY_SAMPLES) (energyArray motor_init)
  /\ adc_k (motion_handle adc_peak (WIFI_CMD_SCAN * 16777216)
              (start motor_init 0))
     = 0 + ENERGY_SAMPLES * ADC_AVERAGE_DEPTH.
Proof.
  apply (scan_overwrites_energy_buffer adc_peak
           (WIFI_CMD_SCAN * 16777216) motor_init 0); reflexivity.
Defined.

Lemma move_ignores_data_len_witness :
  info_data_len pkt_move_short = 1
  /\ fst (slave_decoding pkt_move_short world_init) = 0
  /\ comm (snd (slave_decoding pkt_move_short world_init)) = comm world_init
  /\ motion_queue (snd (slave_decoding pkt_move_short world_init)) =
       motion_queue world_init
       ++ [WIFI_CMD_MOVE * 16777216
           + pkt_byte pkt_move_short WIFI_MOVE_IDX_PARAM1 * 65536
           + pkt_byte pkt_move_short WIFI_MOVE_IDX_PARAM2 * 256].
Proof.
  split; [reflexivity |].
  apply (move_ignores_data_len (adc_constant 1000) slave_addr link_up
           pkt_move_short world_init);
    [reflexivity | unfold MOTION_QUEUE_LENGTH; cbn; lia].
Defined.

(** * Two nodes *)

(** X19. The power-request exchange between a slave at address [s] and the
    master, each packet being delivered as it was sent, with both links up:
    the slave's REQPWR makes the master send GET_STATUS; that makes the
    slave latch the acknowledgement and send a five-byte report; the report
    makes the master send SCAN; and the SCAN puts one SCAN word on the
    slave's motion queue.  After that the slave requests no more. *)
Theorem power_request_exchange adcS adcM s linkS linkM wS wM :
  s <> WIFI_MASTER_ADDR ->
  slave_boot_up (comm wS) = false ->
  (forall k, linkS k = true) ->
  (forall k, linkM k = true) ->
  (length (motion_queue wS) < MOTION_QUEUE_LENGTH)%nat ->
  exists report rx wS1 wM1 wS2 wM2 wS3,
    wifi_slave_request s linkS wS = wS1
    /\ outbox (comm wS1)
       = outbox (comm wS) ++ [(WIFI_MASTER_ADDR, [WIFI_CMD_REQPWR])]
    /\ wifi_pkt_decoding adcM WIFI_MASTER_ADDR linkM
         (delivered s [WIFI_CMD_REQPWR]) wM = (0, wM1)
    /\ outbox (comm wM1) = outbox (comm wM) ++ [(s, [WIFI_CMD_GET_STATUS])]
    /\ wifi_pkt_decoding adcS s linkS
         (delivered WIFI_MASTER_ADDR [WIFI_CMD_GET_STATUS]) wS1 = (0, wS2)
    /\ outbox (comm wS2) = outbox (comm wS1) ++ [(WIFI_MASTER_ADDR, report)]
    /\ length report = 5%nat
    /\ slave_boot_up (comm wS2) = true
    /\ wifi_pkt_decoding adcM WIFI_MASTER_ADDR linkM (delivered s report) wM1
       = (0, wM2)
    /\ outbox (comm wM2) = outbox (comm wM1) ++ [(s, [WIFI_CMD_SCAN])]
    /\ wifi_pkt_decoding adcS s linkS
         (delivered WIFI_MASTER_ADDR [WIFI_CMD_SCAN]) wS2 = (0, wS3)
    /\ motion_queue wS3 = motion_queue wS ++ [rx]
    /\ CMD_UNPACK rx = WIFI_CMD_SCAN
    /\ wifi_slave_request s linkS wS3 = wS3.
Proof.
  intros Hs Hboot HlS HlM Hroom.
  set (wS1 := wifi_slave_request s linkS wS).
  assert (H1 : outbox (comm wS1)
               = outbox (comm wS) ++ [(WIFI_MASTER_ADDR, [WIFI_CMD_REQPWR])]
               /\ motion_queue wS1 = motion_queue wS).
  { unfold wS1, wifi_slave_request. rewrite Hboot.
    destruct (Z.eqb_spec s WIFI_MASTER_ADDR); [contradiction |]. cbn [negb andb].
    destruct (wireless_send_effect linkS WIFI_MASTER_ADDR [u8 WIFI_CMD_REQPWR] wS)
      as (_ & Hq & _ & _ & _ & Ho).
    rewrite Hq, Ho, HlS. split; reflexivity. }
  destruct H1 as [Hout1 Hq1].
  destruct (master_replies adcM WIFI_MASTER_ADDR linkM
              (delivered s [WIFI_CMD_REQPWR]) wM eq_refl)
    as (Hr1 & _ & HoM1); [left; reflexivity |].
  rewrite HlM in HoM1.
  change (pkt_byte (delivered s [WIFI_CMD_REQPWR]) 0 =? WIFI_CMD_REQPWR)
    with true in HoM1. cbv iota in HoM1.
  change (nwk_src (delivered s [WIFI_CMD_REQPWR])) with s in HoM1.
  destruct (slave_answers_get_status adcS s linkS
              (delivered WIFI_MASTER_ADDR [WIFI_CMD_GET_STATUS]) wS1 Hs eq_refl
              (HlS _))
    as (low & Hlow & Hr2 & Hb2 & Hq2 & Ho2).
  set (report := [WIFI_CMD_GIVE_STATUS; u8 (busy (comm wS1)); 0; low;
                  u8 (position (comm wS1))]) in *.
  destruct (master_replies adcM WIFI_MASTER_ADDR linkM (delivered s report)
              (snd (wifi_pkt_decoding adcM WIFI_MASTER_ADDR linkM
                      (delivered s [WIFI_CMD_REQPWR]) wM)) eq_refl)
    as (Hr3 & _ & HoM2); [right; split; [reflexivity | discriminate] |].
  rewrite HlM in HoM2.
  change (pkt_byte (delivered s report) 0 =? WIFI_CMD_REQPWR)
    with false in HoM2. cbv iota in HoM2.
  change (nwk_src (delivered s report)) with s in HoM2.
  pose proof (decoding_SCAN adcS s linkS
                (delivered WIFI_MASTER_ADDR [WIFI_CMD_SCAN])
                (snd (wifi_pkt_decoding adcS s linkS
                        (delivered WIFI_MASTER_ADDR [WIFI_CMD_GET_STATUS]) wS1))
                eq_refl) as Hd4.
  destruct (wifi_pkt_decoding adcM WIFI_MASTER_ADDR linkM
              (delivered s [WIFI_CMD_REQPWR]) wM) as [c1 wM1] eqn:E1.
  destruct (wifi_pkt_decoding adcS s linkS
              (delivered WIFI_MASTER_ADDR [WIFI_CMD_GET_STATUS]) wS1)
    as [c2 wS2] eqn:E2.
  cbn [fst snd] in *.
  destruct (wifi_pkt_decoding adcM WIFI_MASTER_ADDR linkM
              (delivered s report) wM1) as [c3 wM2] eqn:E3.
  cbn [fst snd] in *. subst c1 c2 c3.
  exists report, (WIFI_CMD_SCAN * 16777216), wS1, wM1, wS2, wM2,
    (snd (xQueueSend (WIFI_CMD_SCAN * 16777216) wS2)).
  repeat (split; [first [reflexivity | assumption] |]).
  assert (Hroom2 : (length (motion_queue wS2) < MOTION_QUEUE_LENGTH)%nat)
    by (rewrite Hq2, Hq1; exact Hroom).
  split; [rewrite (xQueueSend_room (WIFI_CMD_SCAN * 16777216) wS2 Hroom2),
            Hq2, Hq1; reflexivity |].
  split; [reflexivity |].
  unfold wifi_slave_request, xQueueSend.
  destruct (_ <? _)%nat; cbn [snd comm]; rewrite Hb2; reflexivity.
Qed.

(** * The further properties on concrete inputs *)

Lemma toggle_sequence_witness :
  current_pos (toggles 3 motor_at_end) = 1
  /\ pin_high STEP_PIN (toggles 3 motor_at_end) = true.
Proof.
  destruct (toggle_sequence 3 motor_at_end) as (_ & Hp & Hs & _).
  - unfold in_range, motor_at_end, STEPS_PER_REV. cbn. lia.
  - rewrite Hp, Hs. split; reflexivity.
Defined.

Lemma move_final_position_witness :
  current_pos (cur (motion_handle (adc_constant 1000) (word_move 251)
                      (start motor_init 0))) = 197
  /\ pin_high DIRECTION_PIN
       (cur (motion_handle (adc_constant 1000) (word_move 251)
               (start motor_init 0))) = CCW.
Proof.
  destruct (move_final_position (adc_constant 1000) (word_move 251)
              motor_init 0) as (Hp & Hd & _).
  - reflexivity.
  - unfold in_range, STEPS_PER_REV. cbn. lia.
  - vm_compute. discriminate.
  - rewrite Hp, Hd. split; reflexivity.
Defined.

Lemma move_minus_128_stays_witness :
  current_pos (cur (motion_handle (adc_constant 1000) (word_move 128)
                      (start motor_init 0))) = current_pos motor_init
  /\ steps_todo2 (cur (motion_handle (adc_constant 1000) (word_move 128)
                         (start motor_init 0))) = -128.
Proof.
  destruct (move_minus_128_stays (adc_constant 1000) (word_move 128)
              motor_init 0) as (Hp & _ & _ & Ht & _).
  - reflexivity.
  - reflexivity.
  - split; assumption.
Defined.

Lemma move_there_and_back_witness :
  current_pos
    (cur (motion_handle (adc_constant 1000) (word_move 251)
            (start (cur (motion_handle (adc_constant 1000) (word_move 5)
                           (start motor_init 0))) 0))) = 1.
Proof.
  rewrite (move_there_and_back (adc_constant 1000) (word_move 5)
             (word_move 251) motor_init 0 0 5).
  - reflexivity.
  - reflexivity.
  - reflexivity.
  - unfold in_range, STEPS_PER_REV. cbn. lia.
  - lia.
  - reflexivity.
  - reflexivity.
Defined.


Lemma scan_final_position_witness :
  current_pos (cur (motion_handle adc_peak word_scan (start motor_init 0)))
  = 20
  /\ pin_high DIRECTION_PIN
       (cur (motion_handle adc_peak word_scan (start motor_init 0))) = CW.
Proof.
  destruct (scan_final_position adc_peak word_scan motor_init 0 40)
    as (Hp & Hd & _).
  - reflexivity.
  - unfold in_range, STEPS_PER_REV. cbn. lia.
  - reflexivity.
  - vm_compute. reflexivity.
  - rewrite Hp, Hd. split; reflexivity.
Defined.

Lemma decoding_ignores_witness :
  wifi_pkt_decoding (adc_constant 1000) slave_addr link_up pkt_terminate
    world_init = (0, world_init)
  /\ wifi_pkt_decoding (adc_constant 1000) slave_addr link_up pkt_reqpwr
       world_init = (0, world_init).
Proof.
  split.
  - apply (decoding_ignores (adc_constant 1000) slave_addr link_up
             pkt_terminate world_init).
    right. left. reflexivity.
  - apply (decoding_ignores (adc_constant 1000) slave_addr link_up
             pkt_reqpwr world_init).
    right. right. right. split; [vm_compute; discriminate |].
    left. reflexivity.
Defined.

Lemma motion_queue_bounded_witness :
  (length (motion_queue
             (snd (slave_decoding pkt_scan
                     (snd (slave_decoding (pkt_move 100) world_init)))))
   <= MOTION_QUEUE_LENGTH)%nat.
Proof.
  apply (motion_queue_bounded (adc_constant 1000) slave_addr link_up).
  apply reach_decode, reach_decode, reach_init.
Defined.

Lemma decoding_full_queue_drops_witness :
  slave_decoding pkt_scan world_full = (0, world_full).
Proof.
  apply (decoding_full_queue_drops (adc_constant 1000) slave_addr link_up
           pkt_scan world_full).
  - reflexivity.
  - left. reflexivity.
Defined.

Lemma boot_acknowledged_latches_witness :
  slave_boot_up (comm (snd (slave_decoding pkt_get_status world_init))) = true
  /\ wifi_slave_request slave_addr link_up
       (snd (slave_decoding pkt_get_status world_init))
     = snd (slave_decoding pkt_get_status world_init).
Proof.
  destruct (boot_acknowledged_latches (adc_constant 1000) slave_addr link_up
              pkt_get_status world_init) as (Hset & _).
  destruct (boot_acknowledged_latches (adc_constant 1000) slave_addr link_up
              pkt_get_status
              (snd (slave_decoding pkt_get_status world_init)))
    as (_ & Hkeep & _).
  split; [apply Hset; reflexivity |].
  apply Hkeep. apply Hset. reflexivity.
Defined.

Lemma status_report_shape_witness :
  exists low,
    0 <= low <= 32
    /\ outbox (comm (wifi_slave_heartbeat (adc_constant 1000) link_up
                       world_init))
       = outbox (comm world_init)
         ++ [(WIFI_MASTER_ADDR,
              [WIFI_CMD_GIVE_STATUS; u8 (busy (comm world_init)); 0; low;
               u8 (position (comm world_init))])].
Proof.
  destruct (status_report_shape (adc_constant 1000) link_up world_init)
    as (_ & _ & _ & _ & _ & Hup).
  apply Hup. reflexivity.
Defined.

Lemma scan_reading_is_mean_witness :
  scan_reading (adc_constant 1000) 0 = 1000.
Proof.
  destruct (scan_reading_is_mean (adc_constant 1000) 0) as (_ & _ & Hsteady).
  - intros j. unfold adc_constant. lia.
  - apply Hsteady. intros j Hj. reflexivity.
Defined.

Lemma motion_word_fields_witness :
  CMD_UNPACK (move_word pkt_move_short WIFI_CMD_MOVE) = WIFI_CMD_MOVE
  /\ PARAM1_UNPACK (move_word pkt_move_short WIFI_CMD_MOVE)
     = pkt_byte pkt_move_short WIFI_MOVE_IDX_PARAM1
  /\ PARAM2_UNPACK (move_word pkt_move_short WIFI_CMD_MOVE)
     = pkt_byte pkt_move_short WIFI_MOVE_IDX_PARAM2
  /\ PARAM3_UNPACK (move_word pkt_move_short WIFI_CMD_MOVE) = 0
  /\ 0 <= move_word pkt_move_short WIFI_CMD_MOVE < 4294967296.
Proof.
  apply (motion_word_fields pkt_move_short WIFI_CMD_MOVE).
  unfold WIFI_CMD_MOVE. lia.
Defined.

Lemma packets_decoded_in_order_witness :
  turns (length [pkt_move 100; pkt_scan])
        (mid_comm_task (adc_constant 1000) slave_addr link_up)
        (fold_left (fun n p => wifi_receive_task (Some p) n)
                   [pkt_move 100; pkt_scan]
                   {| world := world_init; comm_queue := [] |})
  = {| world := fold_left (fun w0 p => snd (slave_decoding p w0))
                          [pkt_move 100; pkt_scan] world_init;
       comm_queue := [] |}.
Proof.
  apply (packets_decoded_in_order (adc_constant 1000) slave_addr link_up
           [pkt_move 100; pkt_scan] world_init).
  unfold COMM_QUEUE_LENGTH. cbn. lia.
Defined.

Lemma comm_queue_bounded_witness :
  wifi_receive_task (Some pkt_scan)
    {| world := world_init; comm_queue := repeat pkt_scan 10 |}
  = {| world := world_init; comm_queue := repeat pkt_scan 10 |}.
Proof.
  destruct (comm_queue_bounded (adc_constant 1000) slave_addr link_up
              (Some pkt_scan)
              {| world := world_init; comm_queue := repeat pkt_scan 10 |})
    as (_ & _ & Hfull & _).
  - unfold COMM_QUEUE_LENGTH. cbn. lia.
  - apply Hfull. reflexivity.
Defined.

Lemma master_replies_witness :
  outbox (comm (snd (wifi_pkt_decoding (adc_constant 1000) WIFI_MASTER_ADDR
                       link_up pkt_give_status world_init)))
  = [(slave_addr, [WIFI_CMD_SCAN])].
Proof.
  destruct (master_replies (adc_constant 1000) WIFI_MASTER_ADDR link_up
              pkt_give_status world_init) as (_ & _ & Ho).
  - reflexivity.
  - right. split; [reflexivity | vm_compute; discriminate].
  - rewrite Ho. reflexivity.
Defined.

Lemma power_request_exchange_witness :
  exists report rx wS1 wM1 wS2 wM2 wS3,
    wifi_slave_request slave_addr link_up world_init = wS1
    /\ outbox (comm wS1)
       = outbox (comm world_init) ++ [(WIFI_MASTER_ADDR, [WIFI_CMD_REQPWR])]
    /\ wifi_pkt_decoding (adc_constant 1000) WIFI_MASTER_ADDR link_up
         (delivered slave_addr [WIFI_CMD_REQPWR]) world_init = (0, wM1)
    /\ outbox (comm wM1)
       = outbox (comm world_init) ++ [(slave_addr, [WIFI_CMD_GET_STATUS])]
    /\ wifi_pkt_decoding (adc_constant 1000) slave_addr link_up
         (delivered WIFI_MASTER_ADDR [WIFI_CMD_GET_STATUS]) wS1 = (0, wS2)
    /\ outbox (comm wS2) = outbox (comm wS1) ++ [(WIFI_MASTER_ADDR, report)]
    /\ length report = 5%nat
    /\ slave_boot_up (comm wS2) = true
    /\ wifi_pkt_decoding (adc_constant 1000) WIFI_MASTER_ADDR link_up
         (delivered slave_addr report) wM1 = (0, wM2)
    /\ outbox (comm wM2) = outbox (comm wM1) ++ [(slave_addr, [WIFI_CMD_SCAN])]
    /\ wifi_pkt_decoding (adc_constant 1000) slave_addr link_up
         (delivered WIFI_MASTER_ADDR [WIFI_CMD_SCAN]) wS2 = (0, wS3)
    /\ motion_queue wS3 = motion_queue world_init ++ [rx]
    /\ CMD_UNPACK rx = WIFI_CMD_SCAN
    /\ wifi_slave_request slave_addr link_up wS3 = wS3.
Proof.
  apply (power_request_exchange (adc_constant 1000) (adc_constant 1000)
           slave_addr link_up link_up world_init world_init).
  - vm_compute. discriminate.
  - reflexivity.
  - intros k. reflexivity.
  - intros k. reflexivity.
  - unfold MOTION_QUEUE_LENGTH. cbn. lia.
Defined.

Lemma power_wifi_init_pin_bits_witness :
  Z.testbit (PINSEL1 (power_wifi_init_pins pins_reset)) 20 = true
  /\ Z.testbit (PINSEL4 (power_wifi_init_pins pins_reset)) 3 = false
  /\ Z.testbit (FIODIR2 (power_wifi_init_pins pins_reset)) 3 = true
  /\ Z.testbit (PINMODE4 (power_wifi_init_pins pins_reset)) 6 = false.
Proof.
  destruct (power_wifi_init_pin_bits pins_reset 20 ltac:(lia)) as (H1 & _).
  destruct (power_wifi_init_pin_bits pins_reset 3 ltac:(lia))
    as (_ & H2 & H3 & _).
  destruct (power_wifi_init_pin_bits pins_reset 6 ltac:(lia))
    as (_ & _ & _ & H4 & _).
  rewrite H1, H2, H3, H4. repeat split; reflexivity.
Defined.
